(** * Order pipeline: admission (api/src/routes/orders.js) and
      processing (worker/src/worker.js) over Redis and MySQL

    The development embeds the two HTTP handlers of the API service and the
    processing loop of the worker as functions over an explicit world
    (cache, stream, orders table), with JavaScript numbers as IEEE 754
    binary64 values and the DECIMAL(12,4) columns of the table as numbers
    of ten-thousandths. *)

From Stdlib Require Import ZArith QArith Qround Bool List Ascii String.
From Stdlib Require Import SpecFloat Lia.
From stdpp Require Import base option list sorting gmap strings pretty.
Import ListNotations.

Local Open Scope string_scope.
Local Open Scope list_scope.
Local Open Scope Z_scope.

(** ** JavaScript numbers

    A Number is a binary64 value: [spec_float] at precision 53 and maximal
    exponent 1024, with the operations of SpecFloat (round to nearest,
    ties to even). *)
Module JsNumber.

Definition prec : Z := 53.
Definition emax : Z := 1024.

Definition NaN : spec_float := S754_nan.
Definition pos_zero : spec_float := S754_zero false.
Definition Infinity : spec_float := S754_infinity false.

Definition mul : spec_float -> spec_float -> spec_float := SFmul prec emax.
Definition add : spec_float -> spec_float -> spec_float := SFadd prec emax.
Definition div : spec_float -> spec_float -> spec_float := SFdiv prec emax.

(** The relational operators: any comparison with NaN is false. *)
Definition ltb (x y : spec_float) : bool := SFltb x y.
Definition leb (x y : spec_float) : bool := SFleb x y.
Definition gtb (x y : spec_float) : bool := SFltb y x.
Definition eqb (x y : spec_float) : bool := SFeqb x y.

(** The integer [n] as a Number. *)
Definition of_Z (n : Z) : spec_float := binary_normalize prec emax n 0 false.

(** [Number.isFinite] on a Number. *)
Definition isFinite (x : spec_float) : bool :=
  match x with
  | S754_zero _ | S754_finite _ _ _ => true
  | S754_infinity _ | S754_nan => false
  end.

(** [Math.round]: the closest integer, a tie going towards +Infinity;
    NaN, the infinities and the integers (both zeros among them) are
    returned as they are, and what rounds to zero keeps the sign of the
    argument. With a negative exponent [e] the value is [m / 2^(-e)], and
    the result is the floor of that value plus one half. *)
Definition Math_round (x : spec_float) : spec_float :=
  match x with
  | S754_finite s m e =>
      if 0 <=? e then x
      else
        let half := Z.shiftl 1 (- e - 1) in
        let n := Z.shiftr ((if s then Z.neg m else Z.pos m) + half) (- e) in
        binary_normalize prec emax n 0 s
  | _ => x
  end.

(** *** [Number(string)]

    Strings are sequences of code units; the code units here are those
    below 256. *)
Definition code (c : ascii) : Z := Z.of_N (N_of_ascii c).

Definition codes (s : string) : list Z := map code (list_ascii_of_string s).

(** The white space and line terminators below 256: TAB, LF, VT, FF, CR,
    SP and NBSP. *)
Definition is_white_space (c : Z) : bool :=
  (c =? 9) || (c =? 10) || (c =? 11) || (c =? 12) || (c =? 13)
  || (c =? 32) || (c =? 160).

Fixpoint trim_start (l : list Z) : list Z :=
  match l with
  | c :: l' => if is_white_space c then trim_start l' else l
  | [] => []
  end.

Definition trim (l : list Z) : list Z :=
  rev (trim_start (rev (trim_start l))).

(** The value of a digit in a radix up to 16, upper or lower case. *)
Definition digit_value (radix c : Z) : option Z :=
  let v :=
    if (48 <=? c) && (c <=? 57) then c - 48
    else if (97 <=? c) && (c <=? 102) then c - 87
    else if (65 <=? c) && (c <=? 70) then c - 55
    else radix in
  if v <? radix then Some v else None.

(** The longest prefix of digits, as digit values, and what follows. *)
Fixpoint span_digits (radix : Z) (l : list Z) : list Z * list Z :=
  match l with
  | c :: l' =>
      match digit_value radix c with
      | Some v => let '(ds, r) := span_digits radix l' in (v :: ds, r)
      | None => ([], l)
      end
  | [] => ([], [])
  end.

Definition digits_value (radix : Z) (ds : list Z) : Z :=
  fold_left (fun acc d => radix * acc + d) ds 0.

(** The Number closest to [n * 10^e10], a tie going to the even
    mantissa. For a negative [e10] the quotient of [n * 2^k] by
    [10^(-e10)] is taken with [k] large enough for the quotient to have
    more bits than any binary64 mantissa at any exponent, and the
    remainder gives the position of the exact value between that quotient
    and the next. *)
Definition of_decimal (s : bool) (n e10 : Z) : spec_float :=
  match n with
  | Z.pos _ =>
      if 0 <=? e10 then
        binary_normalize prec emax (if s then - (n * 10 ^ e10) else n * 10 ^ e10) 0 s
      else
        let d := 10 ^ (- e10) in
        let k := 1100 + Z.log2_up d in
        let '(q, r) := Z.div_eucl (Z.shiftl n k) d in
        binary_round_aux prec emax s q (- k) (new_location d r)
  | _ => S754_zero s
  end.

(** StrUnsignedDecimalLiteral: [Infinity], or digits with an optional
    fraction and an optional exponent; at least one digit before the
    exponent. *)
Definition parse_exponent (l : list Z) : option Z :=
  match l with
  | [] => Some 0
  | c :: l' =>
      if (c =? 101) || (c =? 69) then
        let '(neg, l'') :=
          match l' with
          | 43 :: t => (false, t)
          | 45 :: t => (true, t)
          | _ => (false, l')
          end in
        match span_digits 10 l'' with
        | ((_ :: _) as ds, []) =>
            Some (if neg then - digits_value 10 ds else digits_value 10 ds)
        | _ => None
        end
      else None
  end.

Definition parse_unsigned_decimal (s : bool) (l : list Z) : spec_float :=
  if bool_decide (l = codes "Infinity") then S754_infinity s
  else
    let '(int_ds, r1) := span_digits 10 l in
    let '(frac_ds, r2) :=
      match r1 with
      | 46 :: t => span_digits 10 t
      | _ => ([], r1)
      end in
    match int_ds ++ frac_ds with
    | [] => NaN
    | ds =>
        match parse_exponent r2 with
        | Some e => of_decimal s (digits_value 10 ds) (e - Z.of_nat (length frac_ds))
        | None => NaN
        end
    end.

(** NonDecimalIntegerLiteral: the digits after [0x], [0o] or [0b]. *)
Definition parse_radix (radix : Z) (l : list Z) : spec_float :=
  match span_digits radix l with
  | ((_ :: _) as ds, []) => of_Z (digits_value radix ds)
  | _ => NaN
  end.

(** StringToNumber: white space is trimmed; the empty string is +0; a
    literal that is not of the grammar is NaN. *)
Definition of_codes (l : list Z) : spec_float :=
  match trim l with
  | [] => pos_zero
  | 48 :: 120 :: t | 48 :: 88 :: t => parse_radix 16 t
  | 48 :: 111 :: t | 48 :: 79 :: t => parse_radix 8 t
  | 48 :: 98 :: t | 48 :: 66 :: t => parse_radix 2 t
  | 43 :: t => parse_unsigned_decimal false t
  | 45 :: t => parse_unsigned_decimal true t
  | t => parse_unsigned_decimal false t
  end.

Definition of_string (s : string) : spec_float := of_codes (codes s).

(** *** The shortest decimal of a Number

    [m * 2^e] compared with [10^j]. *)
Definition compare_pow10 (m : positive) (e j : Z) : comparison :=
  (Z.pos m * 2 ^ Z.max e 0 * 10 ^ Z.max (- j) 0
   ?= 10 ^ Z.max j 0 * 2 ^ Z.max (- e) 0).

(** The [n] with [10^(n-1) <= m * 2^e < 10^n]. With [b] the position of
    the leading bit, the floor of [b * 0.30103] is at most one off the
    floor of the decimal logarithm of [2^b], below which [n - 1] does not
    lie and which it exceeds by one at most: [n] is the least of three
    candidates with the value below [10^n]. *)
Definition decimal_exponent (m : positive) (e : Z) : Z :=
  let est := (Z.log2 (Z.pos m) + e) * 30103 / 100000 in
  match compare_pow10 m e est with
  | Lt => est
  | _ => match compare_pow10 m e (est + 1) with
         | Lt => est + 1
         | _ => est + 2
         end
  end.

(** The decimals of [k] digits next to [m * 2^e], below and above, for
    [k] from the given one on: the first that reads back as the Number
    is taken, the closer one when both do, and the even one in a tie.
    Seventeen digits always read back. The result is [(d, q)] for the
    decimal [d * 10^q]. *)
Fixpoint shortest_from (fuel : nat) (k : Z) (m : positive) (e n : Z)
  : Z * Z :=
  let scale := k - n in
  let num := Z.pos m * 2 ^ Z.max e 0 * 10 ^ Z.max scale 0 in
  let den := 2 ^ Z.max (- e) 0 * 10 ^ Z.max (- scale) 0 in
  let lo := num / den in
  let r := num - lo * den in
  let back d := SFeqb (of_decimal false d (- scale)) (S754_finite false m e) in
  match back lo, back (lo + 1) with
  | true, true =>
      (match 2 * r ?= den with
       | Lt => lo
       | Gt => lo + 1
       | Eq => if Z.even lo then lo else lo + 1
       end, - scale)
  | true, false => (lo, - scale)
  | false, true => (lo + 1, - scale)
  | false, false =>
      match fuel with
      | O => (lo, - scale)
      | S fuel' => shortest_from fuel' (k + 1) m e n
      end
  end.

(** The decimal of fewest digits that reads back as the positive Number
    [m * 2^e]: the digits [Number.prototype.toString] prints, and those a
    database server derives from a DOUBLE. *)
Definition shortest_digits (m : positive) (e : Z) : Z * Z :=
  shortest_from 17 1 m e (decimal_exponent m e).

End JsNumber.

(** [Number.prototype.toString] belongs to the JavaScript engine. *)
Class NumberToString := number_toString : spec_float -> string.

(** ** JavaScript values of a JSON body *)
Module JsValue.

(** The values a property of a parsed JSON body can hold: scalars, lists
    and objects with their own properties; [JsUndefined] is a property the
    body does not have. *)
#[local] Unset Elimination Schemes.
Inductive JsValue :=
| JsUndefined
| JsNull
| JsBool (b : bool)
| JsNum (x : spec_float)
| JsStr (s : string)
| JsArr (elements : list JsValue)
| JsObj (properties : list (string * JsValue)).
#[local] Set Elimination Schemes.

(** ToBoolean, as applied by [!v] and [if (v)]: every object is true. *)
Definition ToBoolean (v : JsValue) : bool :=
  match v with
  | JsUndefined | JsNull => false
  | JsBool b => b
  | JsNum (S754_zero _) | JsNum S754_nan => false
  | JsNum _ => true
  | JsStr s => negb (String.eqb s "")
  | JsArr _ | JsObj _ => true
  end.

(** Whether an object has an own property of a name. *)
Definition has_own (k : string) (o : list (string * JsValue)) : bool :=
  existsb (fun kv => String.eqb (fst kv) k) o.

(** The value of a property of an object of a JSON body: its own
    property of that name, or undefined (Object.prototype has none of the
    names asked for here). *)
Fixpoint get_own (k : string) (o : list (string * JsValue)) : JsValue :=
  match o with
  | [] => JsUndefined
  | (k', v) :: o' => if String.eqb k' k then v else get_own k o'
  end.

(** Whether ToPrimitive throws a TypeError. The methods [toString] and
    [valueOf] of an object of a JSON body are those of Object.prototype,
    unless the object has own properties of these names, which hold JSON
    values and are not callable. The inherited [valueOf] returns the
    object itself, so the primitive comes from [toString]: with an own
    property [toString] no method gives one, and the conversion throws.
    A list is converted by [join], which converts its elements in turn. *)
Fixpoint conversion_throws (v : JsValue) : bool :=
  match v with
  | JsObj o => has_own "toString" o
  | JsArr l => existsb conversion_throws l
  | _ => false
  end.

(** ToString, for a value whose conversion does not throw: the text of
    an object is that of Object.prototype.toString, and a list is joined
    with commas, an element that is undefined or null giving the empty
    text. *)
Fixpoint ToString `{NumberToString} (v : JsValue) : string :=
  match v with
  | JsUndefined => "undefined"
  | JsNull => "null"
  | JsBool b => if b then "true" else "false"
  | JsNum x => number_toString x
  | JsStr s => s
  | JsArr l =>
      String.concat ","
        (map (fun e => match e with
                       | JsUndefined | JsNull => ""
                       | _ => ToString e
                       end) l)
  | JsObj _ => "[object Object]"
  end.

(** ToNumber, as applied by [Number(v)], for a value whose conversion
    does not throw: an object or a list is converted to its text first. *)
Definition ToNumber `{NumberToString} (v : JsValue) : spec_float :=
  match v with
  | JsUndefined => JsNumber.NaN
  | JsNull => JsNumber.pos_zero
  | JsBool b => if b then JsNumber.of_Z 1 else JsNumber.pos_zero
  | JsNum x => x
  | JsStr s => JsNumber.of_string s
  | JsArr _ | JsObj _ => JsNumber.of_string (ToString v)
  end.

(** [v.length > n] for a value that is neither undefined nor null: the
    length of a string or of a list; a number and a boolean have no such
    property, and [undefined > n] is false; an object has its own
    property [length], if any. *)
Definition length_gt `{NumberToString} (v : JsValue) (n : Z) : bool :=
  match v with
  | JsStr s => n <? Z.of_nat (String.length s)
  | JsArr l => n <? Z.of_nat (length l)
  | JsObj o => JsNumber.gtb (ToNumber (get_own "length" o)) (JsNumber.of_Z n)
  | _ => false
  end.

(** A string or an absent value, under [!v] and [v || w]. *)
Definition truthy (o : option string) : bool :=
  match o with
  | Some s => negb (String.eqb s "")
  | None => false
  end.

End JsValue.
Export JsValue.

(** The comparison of [order_id] values under the collation of the orders
    table (utf8mb4_unicode_ci) belongs to the database server: two values
    are equal for the unique key and for [WHERE order_id = ?] when their
    collation keys are. *)
Class Collation := collation_key : string -> string.

(** ** The pattern of an order id *)

(** A character of the class [[a-zA-Z0-9_-]]. *)
Definition order_id_char (c : ascii) : bool :=
  let n := JsNumber.code c in
  ((97 <=? n) && (n <=? 122)) || ((65 <=? n) && (n <=? 90))
  || ((48 <=? n) && (n <=? 57)) || (n =? 95) || (n =? 45).

(** [/^[a-zA-Z0-9_-]+$/.test(s)]: one character or more, all of the class.
    Without the [m] flag [$] matches at the end of the input only. *)
Definition order_id_regex_test (s : string) : bool :=
  match list_ascii_of_string s with
  | [] => false
  | l => forallb order_id_char l
  end.

Definition str_length (s : string) : Z := Z.of_nat (String.length s).

(** [s.trim().length]. *)
Definition str_trim_length (s : string) : Z :=
  Z.of_nat (length (JsNumber.trim (JsNumber.codes s))).

(** ** The world: cache, stream and orders table *)

(** A value of a JSON document held in the cache or sent in a response;
    [JDate] is a [Date], serialised as its ISO text. *)
Inductive Json :=
| JNull
| JBool (b : bool)
| JNum (x : spec_float)
| JStr (s : string)
| JDate (t : Z).

(** [{...o, k: v}]: the property is replaced where it stands, or added at
    the end. *)
Fixpoint obj_set (k : string) (v : Json) (o : list (string * Json))
  : list (string * Json) :=
  match o with
  | [] => [(k, v)]
  | (k', v') :: o' =>
      if String.eqb k' k then (k, v) :: o' else (k', v') :: obj_set k v o'
  end.

(** db/schema.sql: [status ENUM('processing', 'completed', 'failed')]. *)
Inductive Status := processing | completed | failed.

(** A row of the table [orders]. A DECIMAL(12,4) column holds a number of
    ten-thousandths, of twelve digits at most ([1000000] is 100.0000);
    timestamps are in seconds. *)
Record OrderRow := {
  id : Z;
  order_id : string;
  amount : Z;
  tax : Z;
  total : Z;
  status : Status;
  created_at : Z;
  updated_at : Z;
  processed_at : option Z
}.

(** The table: its rows under the unique key on [order_id], and the next
    value of the AUTO_INCREMENT column. *)
Record Table := {
  rows : gmap string OrderRow;
  auto_increment : Z
}.

(** The world: the cache entries with their time to live, the entries of
    [orders_stream] in the order of their ids (the id of an entry is its
    position, from 1), and the table. A cache entry holds the document
    whose JSON text is stored under the key; the passing of time, and with
    it the expiry of entries, is left to the surroundings. *)
Record World := {
  cache : gmap string (list (string * Json) * Z);
  stream : list (list (string * string));
  orders : Table
}.

(** *** DECIMAL(12,4)

    The greatest value of a DECIMAL(12,4) column, 99999999.9999, in
    ten-thousandths. *)
Definition DECIMAL_MAX : Z := 999999999999.

(** The decimal [d * 10^q], with [0 <= d], in ten-thousandths: a digit
    past the fourth place rounds half away from zero. *)
Definition round_to_4 (d q : Z) : Z :=
  if 0 <=? q + 4 then d * 10 ^ (q + 4)
  else (2 * d + 10 ^ (- (q + 4))) / (2 * 10 ^ (- (q + 4))).

(** What a DECIMAL(12,4) column stores for a Number bound to it. The
    server gets the Number as the shortest decimal that reads back as it
    (the text the driver prints, or its own conversion of a DOUBLE) and
    keeps four places, rounding half away from zero. A value beyond the
    range of the column is stored as the end of the range when the server
    takes the statement at all: under strict SQL mode it refuses it, and
    so does any server for a Number that is not finite and has no
    literal. Such a refusal is a call that throws (see [Env]). *)
Definition sql_decimal (x : spec_float) : Z :=
  match x with
  | S754_zero _ | S754_nan => 0
  | S754_infinity s => if s then - DECIMAL_MAX else DECIMAL_MAX
  | S754_finite s m e =>
      let '(d, q) := JsNumber.shortest_digits m e in
      let v := Z.min (round_to_4 d q) DECIMAL_MAX in
      if s then - v else v
  end.

(** [Number(order.amount)]: the Number closest to the value of a
    DECIMAL(12,4) column, which the driver hands over as its decimal
    text. *)
Definition decimal_to_number (d : Z) : spec_float :=
  JsNumber.of_decimal (d <? 0) (Z.abs d) (- 4).

(** [WHERE order_id = ?] with a parameter that is not a string. The driver
    writes a number or a boolean into the statement as a number and a list
    as the list of its values, and the server compares the column with a
    number after reading the text of the column as a number. Which rows
    this finds, and in which order, belongs to the driver and the
    server. *)
Class LooseLookup := rows_matching : JsValue -> Table -> list OrderRow.

Section Store.
Context `{Collation}.

(** [SELECT ... FROM orders WHERE order_id = ?], the parameter a string. *)
Definition find_order (oid : string) (t : Table) : option OrderRow :=
  rows t !! collation_key oid.

(** The same query with any value of a JSON body for the parameter: a
    string finds the row of its key, if any. *)
Definition select_rows `{LooseLookup} (v : JsValue) (t : Table)
  : list OrderRow :=
  match v with
  | JsStr oid => option_list (find_order oid t)
  | _ => rows_matching v t
  end.

(** [INSERT INTO orders (order_id, amount, tax, total, status,
    processed_at) VALUES (?, ?, ?, ?, 'completed', NOW()) ON DUPLICATE
    KEY UPDATE amount = VALUES(amount), tax = VALUES(tax), total =
    VALUES(total), status = VALUES(status), processed_at =
    VALUES(processed_at), updated_at = NOW()].

    Without a row of that key a row is inserted, [id] taking the next
    AUTO_INCREMENT value and [created_at] and [updated_at] their default
    CURRENT_TIMESTAMP; with one, the listed columns of that row are
    assigned and the others are kept. The statement takes an
    AUTO_INCREMENT value on both paths. The three Numbers bound to the
    DECIMAL(12,4) columns are stored as [sql_decimal] gives them. *)
Definition upsert_order (now : Z) (oid : string)
    (amountNum tax_ total_ : spec_float) (t : Table) : Table :=
  let k := collation_key oid in
  let row :=
    match rows t !! k with
    | None =>
        {| id := auto_increment t; order_id := oid;
           amount := sql_decimal amountNum; tax := sql_decimal tax_;
           total := sql_decimal total_;
           status := completed;
           created_at := now; updated_at := now;
           processed_at := Some now |}
    | Some r =>
        {| id := id r; order_id := order_id r;
           amount := sql_decimal amountNum; tax := sql_decimal tax_;
           total := sql_decimal total_;
           status := completed;
           created_at := created_at r; updated_at := now;
           processed_at := Some now |}
    end in
  {| rows := <[k := row]> (rows t);
     auto_increment := auto_increment t + 1 |}.

End Store.

(** ** Effects: calls that may throw, the world, and a trace *)

Inductive Exn :=
| RedisError
| DbError
| ReferenceError (name : string)
| TypeError.

Inductive Call :=
| RedisGet (key : string)
| RedisExpire (key : string) (ttl : Z)
| RedisSetex (key : string) (ttl : Z) (value : list (string * Json))
| RedisXadd (stream_key : string) (fields : list string)
| RedisXread (block_ms : Z) (stream_key : string) (position : string)
| DbSelectStatus (param : JsValue)
| DbSelectOrder (oid : string)
| DbUpsert (oid : string) (amountNum tax_ total_ : spec_float).

(** The lines written to the console. *)
Inductive LogLine :=
| LogQueued (oid : string) (amountNum : spec_float)
| LogErrorCreating
| LogRetrieving (oid : string)
| LogServedFromCache (oid : string)
| LogCacheReadError (oid : string)
| LogCacheMiss (oid : string)
| LogCached (oid : string)
| LogFailedToCache (oid : string)
| LogServedFromDatabase (oid : string)
| LogErrorRetrieving (oid : string)
| LogShutdownRequested
| LogProcessingMessage (messageId : Z)
| LogInvalidMessageData (data : gmap string string)
| LogInvalidAmount (oid : string) (amount_text : string)
| LogProcessingOrder (oid : string) (amountNum tax_ total_ : spec_float)
| LogProcessedSuccessfully (oid : string)
| LogErrorProcessingMessage (messageId : Z) (e : Exn)
| LogErrorInLoop (consecutiveErrors : Z) (e : Exn)
| LogTooManyErrors
| LogWaiting (delay : Z)
| LogFatal (e : Exn)
| LogRestarting.

(** What a run leaves behind, in order: the calls made, the ids of the
    entries each stream read returned, and the console lines. *)
Inductive Event :=
| Called (c : Call)
| Delivered (ids : list Z)
| Logged (l : LogLine).

(** What the surroundings decide for one request or one message: which
    calls are rejected, and the clocks of the database and of the process.
    A call is rejected for any reason of the service behind it: a lost
    connection, a timeout, or a statement the server refuses (an
    [order_id] longer than its column, an amount outside DECIMAL(12,4)
    under strict SQL mode, a parameter that gives no valid statement). *)
Record Env := {
  redis_get_throws : bool;
  redis_expire_throws : bool;
  redis_setex_throws : bool;
  redis_xadd_throws : bool;
  db_query_throws : bool;
  db_now : Z;
  js_now : string
}.

Inductive Result (A : Type) :=
| Ok (a : A)
| Throw (e : Exn).
Arguments Ok {A} a.
Arguments Throw {A} e.

(** An [async] body: it runs in an environment from a world and ends with
    a value or a thrown error, the world it leaves and what it called and
    logged, in order. *)
Definition Eff (A : Type) : Type :=
  Env -> World -> Result A * World * list Event.

Definition eff_ret {A} (a : A) : Eff A := fun _ w => (Ok a, w, []).

Definition eff_bind {A B} (f : A -> Eff B) (m : Eff A) : Eff B :=
  fun env w =>
    match m env w with
    | (Ok a, w1, t1) => let '(r, w2, t2) := f a env w1 in (r, w2, t1 ++ t2)
    | (Throw e, w1, t1) => (Throw e, w1, t1)
    end.

#[global] Instance eff_mret : MRet Eff := @eff_ret.
#[global] Instance eff_mbind : MBind Eff := @eff_bind.

(** [try { m } catch (e) { h e }]. *)
Definition try_catch {A} (m : Eff A) (h : Exn -> Eff A) : Eff A :=
  fun env w =>
    match m env w with
    | (Ok a, w1, t1) => (Ok a, w1, t1)
    | (Throw e, w1, t1) => let '(r, w2, t2) := h e env w1 in (r, w2, t1 ++ t2)
    end.

Definition console (l : LogLine) : Eff unit :=
  fun _ w => (Ok tt, w, [Logged l]).

Definition throw {A} (e : Exn) : Eff A := fun _ w => (Throw e, w, []).

Definition ask : Eff Env := fun env w => (Ok env, w, []).

(** A call: it is recorded, and throws when the environment says so;
    otherwise [run] gives its result and the world it leaves. *)
Definition call {A} (c : Call) (throws : Env -> bool) (e : Exn)
    (run : Env -> World -> A * World) : Eff A :=
  fun env w =>
    if throws env then (Throw e, w, [Called c])
    else let '(a, w') := run env w in (Ok a, w', [Called c]).

Definition with_cache (f : gmap string (list (string * Json) * Z) ->
                           gmap string (list (string * Json) * Z))
    (w : World) : World :=
  {| cache := f (cache w); stream := stream w; orders := orders w |}.

(** Modelled from the spec: the client of [services/redis] is not among
    the sources. [redis.get(key)] is [get(key) -> value | absent] of the
    Cache interface: the document under the key, or null. *)
Definition redis_get (key : string) : Eff (option (list (string * Json))) :=
  call (RedisGet key) redis_get_throws RedisError
    (fun _ w => (fst <$> cache w !! key, w)).

(** Modelled from the spec: [redis.expire(key, ttl)] is
    [refreshTTL(key, ttl_seconds)] of the Cache interface. *)
Definition redis_expire (key : string) (ttl : Z) : Eff unit :=
  call (RedisExpire key ttl) redis_expire_throws RedisError
    (fun _ w => (tt, with_cache (fun c =>
       match c !! key with
       | Some (v, _) => <[key := (v, ttl)]> c
       | None => c
       end) w)).

(** Modelled from the spec: [redis.setex(key, ttl, JSON.stringify(value))]
    is [setWithTTL(key, value, ttl_seconds)] of the Cache interface. *)
Definition redis_setex (key : string) (ttl : Z) (value : list (string * Json))
  : Eff unit :=
  call (RedisSetex key ttl value) redis_setex_throws RedisError
    (fun _ w => (tt, with_cache (fun c => <[key := (value, ttl)]> c) w)).

(** The flat argument list of a stream entry, and back. *)
Fixpoint pairs_of (l : list string) : list (string * string) :=
  match l with
  | k :: v :: l' => (k, v) :: pairs_of l'
  | _ => []
  end.

Definition flat_fields (e : list (string * string)) : list string :=
  flat_map (fun kv => [fst kv; snd kv]) e.

(** Modelled from the spec: [redis.xadd(stream_key, '*', ...fields)] is
    [append(stream_key, field-map) -> entry_id] of the Queue interface: the
    entry goes to the end of the stream. *)
Definition redis_xadd (stream_key : string) (fields : list string) : Eff unit :=
  call (RedisXadd stream_key fields) redis_xadd_throws RedisError
    (fun _ w => (tt, {| cache := cache w;
                        stream := stream w ++ [pairs_of fields];
                        orders := orders w |})).

Section Database.
Context `{Collation}.

(** Modelled from the spec: the pool of [services/db] is not among the
    sources. [db.query('SELECT order_id, status FROM orders WHERE
    order_id = ?')] and the query of all columns are
    [findOrder(order_id) -> OrderRecord | absent] of the Store interface:
    the rows found, at most one under the unique key when the parameter
    is a string. *)
Definition db_select_status `{LooseLookup} (param : JsValue)
  : Eff (list OrderRow) :=
  call (DbSelectStatus param) db_query_throws DbError
    (fun _ w => (select_rows param (orders w), w)).

Definition db_select_order (oid : string) : Eff (list OrderRow) :=
  call (DbSelectOrder oid) db_query_throws DbError
    (fun _ w => (option_list (find_order oid (orders w)), w)).

(** Modelled from the spec: [db.query('INSERT INTO orders ... ON DUPLICATE
    KEY UPDATE ...')] is [upsertOrder(order_id, amount, tax, total)] of the
    Store interface, with the statement of the worker run on the table of
    db/schema.sql. *)
Definition db_upsert (oid : string) (amountNum tax_ total_ : spec_float)
  : Eff unit :=
  call (DbUpsert oid amountNum tax_ total_) db_query_throws DbError
    (fun env w => (tt, {| cache := cache w; stream := stream w;
                          orders := upsert_order (db_now env) oid
                                      amountNum tax_ total_ (orders w) |})).

End Database.

(** ** The API service: api/src/routes/orders.js *)

Inductive Body :=
| ErrMissingFields
| ErrInvalidOrderId
| ErrInvalidAmount
| ErrOrderExists (order_id : JsValue) (existing_order : list (string * Json))
| ErrOrderExistsInDb (order_id : JsValue) (st : Status)
| Queued (order_id : JsValue) (amountNum : spec_float) (timestamp : string)
| ErrFailedToQueue (timestamp : string)
| ErrOrderIdRequired
| ErrInvalidFormat
| OrderDocument (doc : list (string * Json))
| ErrNotFound (oid : string)
| ErrFailedToRetrieve (oid : string) (timestamp : string).

Record Response := { status_code : Z; body : Body }.

Definition respond (code : Z) (b : Body) : Eff Response :=
  mret {| status_code := code; body := b |}.

(** The body of a POST and the address of its sender: [order_id] and
    [amount] are any values of a JSON body, undefined when the body has
    no such property. *)
Record PostRequest := {
  body_order_id : JsValue;
  body_amount : JsValue;
  request_ip : option string
}.

(** The literals [999999.9999] and [0], as the Numbers they denote. *)
Definition MAX_AMOUNT : spec_float :=
  Eval vm_compute in JsNumber.of_string "999999.9999".
Definition ZERO : spec_float := Eval vm_compute in JsNumber.of_string "0".
Definition CACHE_TTL : Z := 3600.

Definition cache_key (oid : string) : string := "order:" +:+ oid.

Definition status_text (s : Status) : string :=
  match s with
  | processing => "processing"
  | completed => "completed"
  | failed => "failed"
  end.

Section Api.
Context `{NumberToString} `{Collation} `{LooseLookup}.

(** [RegExp.prototype.test(v)], a template literal and [v.toString()]
    convert [v] with ToString, and [Number(v)] with ToNumber; the
    conversion of an object or a list may throw. *)
Definition to_string (v : JsValue) : Eff string :=
  if conversion_throws v then throw TypeError else mret (ToString v).

Definition to_number (v : JsValue) : Eff spec_float :=
  if conversion_throws v then throw TypeError else mret (ToNumber v).

(** The entries of [messageData] that are neither null nor undefined,
    each followed by its [toString()]; [oid] is the text of [order_id]. *)
Definition stream_args (oid : string) (numericAmount : spec_float)
    (now : string) (ip : option string) : list string :=
  ["order_id"; oid; "amount"; number_toString numericAmount;
   "created_at"; now]
  ++ match ip with
     | Some a => ["request_ip"; a]
     | None => []
     end.

(** [router.post('/')]. The text of [order_id] is computed by the test of
    the pattern, and again, to the same text, by the template literal of
    the cache key and by [toString()]; it is bound once here. *)
Definition post_order (req : PostRequest) : Eff Response :=
  try_catch
    (let order_id := body_order_id req in
     let amount := body_amount req in
     if negb (ToBoolean order_id) || negb (ToBoolean amount)
     then respond 400 ErrMissingFields
     else
       oid ← to_string order_id;
       if negb (order_id_regex_test oid) || length_gt order_id 100
       then respond 400 ErrInvalidOrderId
       else
         numericAmount ← to_number amount;
         if negb (JsNumber.isFinite numericAmount)
            || JsNumber.leb numericAmount ZERO
            || JsNumber.gtb numericAmount MAX_AMOUNT
         then respond 400 ErrInvalidAmount
         else
           existingOrder ← redis_get (cache_key oid);
           match existingOrder with
           | Some doc => respond 409 (ErrOrderExists order_id doc)
           | None =>
               existingRows ← db_select_status order_id;
               match existingRows with
               | existing :: _ =>
                   respond 409 (ErrOrderExistsInDb order_id (status existing))
               | [] =>
                   env ← ask;
                   redis_xadd "orders_stream"
                     (stream_args oid numericAmount (js_now env)
                        (request_ip req));;
                   console (LogQueued oid numericAmount);;
                   respond 201 (Queued order_id numericAmount (js_now env))
               end
           end)
    (fun error =>
       console LogErrorCreating;;
       env ← ask;
       respond 500 (ErrFailedToQueue (js_now env))).

Definition date_or_null (t : option Z) : Json :=
  match t with
  | Some t => JDate t
  | None => JNull
  end.

(** [{...order, cache_hit: false, retrieved_at, amount: Number(..),
    tax: Number(..), total: Number(..)}]. *)
Definition enrich (order : OrderRow) (now : string) : list (string * Json) :=
  [("order_id", JStr (order_id order));
   ("amount", JNum (decimal_to_number (amount order)));
   ("tax", JNum (decimal_to_number (tax order)));
   ("total", JNum (decimal_to_number (total order)));
   ("status", JStr (status_text (status order)));
   ("created_at", JDate (created_at order));
   ("updated_at", JDate (updated_at order));
   ("processed_at", date_or_null (processed_at order));
   ("cache_hit", JBool false);
   ("retrieved_at", JStr now)].

(** [router.get('/:order_id')]. *)
Definition get_order (order_id : string) : Eff Response :=
  try_catch
    (if negb (truthy (Some order_id)) || (str_trim_length order_id =? 0)
     then respond 400 ErrOrderIdRequired
     else if negb (order_id_regex_test order_id)
             || (100 <? str_length order_id)
     then respond 400 ErrInvalidFormat
     else
       console (LogRetrieving order_id);;
       served ←
         try_catch
           (cached ← redis_get (cache_key order_id);
            match cached with
            | Some orderData =>
                console (LogServedFromCache order_id);;
                redis_expire (cache_key order_id) CACHE_TTL;;
                env ← ask;
                mret (Some
                  {| status_code := 200;
                     body := OrderDocument
                       (obj_set "retrieved_at" (JStr (js_now env))
                          (obj_set "cache_hit" (JBool true) orderData)) |})
            | None => mret None
            end)
           (fun cacheError =>
              console (LogCacheReadError order_id);; mret None);
       match served with
       | Some res => mret res
       | None =>
           console (LogCacheMiss order_id);;
           rows_ ← db_select_order order_id;
           match rows_ with
           | [] => respond 404 (ErrNotFound order_id)
           | order :: _ =>
               env ← ask;
               let enrichedOrder := enrich order (js_now env) in
               try_catch
                 (redis_setex (cache_key order_id) CACHE_TTL enrichedOrder;;
                  console (LogCached order_id))
                 (fun cacheError => console (LogFailedToCache order_id));;
               console (LogServedFromDatabase order_id);;
               respond 200 (OrderDocument enrichedOrder)
           end
       end)
    (fun error =>
       console (LogErrorRetrieving order_id);;
       env ← ask;
       respond 500 (ErrFailedToRetrieve order_id (js_now env))).

End Api.

(** ** The worker service: worker/src/worker.js *)

(** The literals [0.18] and [10000], as the Numbers they denote. *)
Definition TAX_RATE : spec_float :=
  Eval vm_compute in JsNumber.of_string "0.18".
Definition TEN_THOUSAND : spec_float :=
  Eval vm_compute in JsNumber.of_string "10000".
Definition maxConsecutiveErrors : Z := 5.

(** [Math.round(amountNum * 0.18 * 10000) / 10000]. *)
Definition compute_tax (amountNum : spec_float) : spec_float :=
  JsNumber.div
    (JsNumber.Math_round
       (JsNumber.mul (JsNumber.mul amountNum TAX_RATE) TEN_THOUSAND))
    TEN_THOUSAND.

(** [Math.round((amountNum + tax) * 10000) / 10000]. *)
Definition compute_total (amountNum tax_ : spec_float) : spec_float :=
  JsNumber.div
    (JsNumber.Math_round
       (JsNumber.mul (JsNumber.add amountNum tax_) TEN_THOUSAND))
    TEN_THOUSAND.

(** [for (let i = 0; i < fields.length; i += 2) data[fields[i]] =
    fields[i + 1]]: a later field of the same name replaces an earlier
    one. The replies of [XREAD] hold names and values in pairs; a last
    name without a value, which the loop would bind to undefined, is left
    out here. *)
Definition decode_fields (fields : list string) : gmap string string :=
  fold_left (fun data kv => <[fst kv := snd kv]> data) (pairs_of fields) ∅.

(** [v || null]. *)
Definition str_or_null (v : option string) : Json :=
  if truthy v then JStr (default "" v) else JNull.

(** The document written to the cache for a processed order; [now] is
    [new Date().toISOString()]. *)
Definition orderData (data : gmap string string) (order_id : string)
    (amountNum tax_ total_ : spec_float) (now : string)
  : list (string * Json) :=
  [("order_id", JStr order_id);
   ("amount", JNum amountNum);
   ("tax", JNum tax_);
   ("total", JNum total_);
   ("status", JStr "completed");
   ("customer_id", str_or_null (data !! "customer_id"));
   ("description", str_or_null (data !! "description"));
   ("created_at",
      JStr (if truthy (data !! "created_at")
            then default "" (data !! "created_at")
            else now));
   ("processed_at", JStr now);
   ("updated_at", JStr now)].

Section Worker.
Context `{Collation}.

(** The body of the loop over the messages of a reply, for one message:
    the [try] block and its [catch]. The result is the value of
    [consecutiveErrors] after it.

    The handler of the [catch] builds the arguments of [console.error]
    from [data], which is declared with [const] inside the [try] block
    and is not in scope in the handler: evaluating it throws a
    ReferenceError before anything is printed, and that error leaves the
    handler. *)
Definition process_message (messageId : Z) (fields : list string)
    (consecutiveErrors : Z) : Eff Z :=
  try_catch
    (let data := decode_fields fields in
     let order_id := data !! "order_id" in
     let amount := data !! "amount" in
     if negb (truthy order_id) || negb (truthy amount) then
       console (LogInvalidMessageData data);;
       mret consecutiveErrors
     else
       let order_id := default "" order_id in
       let amountNum := JsNumber.of_string (default "" amount) in
       if negb (JsNumber.isFinite amountNum) || JsNumber.leb amountNum ZERO
       then
         console (LogInvalidAmount order_id (default "" amount));;
         mret consecutiveErrors
       else
         let tax_ := compute_tax amountNum in
         let total_ := compute_total amountNum tax_ in
         console (LogProcessingOrder order_id amountNum tax_ total_);;
         db_upsert order_id amountNum tax_ total_;;
         env ← ask;
         redis_setex (cache_key order_id) CACHE_TTL
           (orderData data order_id amountNum tax_ total_ (js_now env));;
         console (LogProcessedSuccessfully order_id);;
         mret 0)
    (fun processingError => throw (ReferenceError "data")).

(** A stream entry as the worker meets it: its fields, what the
    surroundings decide while it is processed, and whether
    [isShuttingDown] is set when its turn comes. *)
Record Delivery := {
  entry : list (string * string);
  entry_env : Env;
  shutting_down : bool
}.

(** How the loops over a reply end: all messages done, [return] on
    shutdown, or an error thrown to the [catch] of the [while] body. *)
Inductive Flow :=
| Completed
| Return
| Thrown (e : Exn).

(** [for (const [messageId, fields] of messages) { ... }], with the
    value of [consecutiveErrors] when it ends. *)
Fixpoint process_messages (messages : list ((Z * list (string * string)) * Delivery))
    (consecutiveErrors : Z) (w : World) : Flow * Z * World * list Event :=
  match messages with
  | [] => (Completed, consecutiveErrors, w, [])
  | ((messageId, fields), d) :: rest =>
      if shutting_down d then
        (Return, consecutiveErrors, w, [Logged LogShutdownRequested])
      else
        match (console (LogProcessingMessage messageId);;
               process_message messageId (flat_fields fields)
                 consecutiveErrors) (entry_env d) w with
        | (Ok c, w1, t1) =>
            let '(f, c2, w2, t2) := process_messages rest c w1 in
            (f, c2, w2, t1 ++ t2)
        | (Throw e, w1, t1) => (Thrown e, consecutiveErrors, w1, t1)
        end
  end.

(** The entries of a stream with their ids. *)
Definition with_ids (s : list (list (string * string)))
  : list (Z * list (string * string)) :=
  imap (fun i e => (Z.of_nat i + 1, e)) s.

(** Modelled from the spec: [redis.xread('BLOCK', 5000, 'STREAMS',
    'orders_stream', '$')] is [readBlocking(stream_key, from_position,
    timeout_ms)] of the Queue interface, with the position [$] of Redis:
    [$] stands for the id of the last entry the stream holds when the
    call arrives, and the reply holds the entries of a greater id, which
    are those added while the call blocks; null when there is none in
    time. *)
Definition xread_dollar (at_call arrivals : list (list (string * string)))
  : option (list (Z * list (string * string))) :=
  let last_id := Z.of_nat (length at_call) in
  match filter (fun m => last_id < fst m) (with_ids (at_call ++ arrivals)) with
  | [] => None
  | ms => Some ms
  end.

(** One turn of [while (!isShuttingDown)]: the flag at the head of the
    loop, whether the read throws, the entries added to the stream while
    the read blocks, and the flag when the [catch] around the loop
    runs. *)
Record Iteration := {
  loop_shutting_down : bool;
  xread_throws : bool;
  arrivals : list Delivery;
  catch_shutting_down : bool
}.

Inductive Worker :=
| Looping (consecutiveErrors : Z)
| Exited.

Definition with_stream (s : list (list (string * string))) (w : World) : World :=
  {| cache := cache w; stream := s; orders := orders w |}.

(** The body of the loop of [processOrders] with its [catch], and the
    [catch] of the function: after too many errors in a row the error is
    thrown again and [processOrders] is started anew, unless the process
    is shutting down. *)
Definition iteration (it : Iteration) (consecutiveErrors : Z) (w : World)
  : Worker * World * list Event :=
  if loop_shutting_down it then (Exited, w, [])
  else
    let read := Called (RedisXread 5000 "orders_stream" "$") in
    let '(flow, c, w1, t1) :=
      if xread_throws it then (Thrown RedisError, consecutiveErrors, w, [read])
      else
        let w' := with_stream (stream w ++ (entry <$> arrivals it)) w in
        match xread_dollar (stream w) (entry <$> arrivals it) with
        | None => (Completed, 0, w', [read; Delivered []])
        | Some messages =>
            let '(f, c, w1, t) :=
              process_messages (zip messages (arrivals it))
                consecutiveErrors w' in
            (f, c, w1, [read; Delivered (fst <$> messages)] ++ t)
        end in
    match flow with
    | Completed => (Looping c, w1, t1)
    | Return => (Exited, w1, t1)
    | Thrown err =>
        let c := c + 1 in
        if maxConsecutiveErrors <=? c then
          (if catch_shutting_down it then Exited else Looping 0, w1,
           t1 ++ [Logged (LogErrorInLoop c err); Logged LogTooManyErrors;
                  Logged (LogFatal err)]
              ++ (if catch_shutting_down it then [] else [Logged LogRestarting]))
        else
          (Looping c, w1,
           t1 ++ [Logged (LogErrorInLoop c err);
                  Logged (LogWaiting (Z.min (1000 * 2 ^ (c - 1)) 30000))])
    end.

End Worker.

(** ** The services side by side *)

Section System.
Context `{NumberToString} `{Collation} `{LooseLookup}.

(** What happens next: a request served by the API, or a turn of the
    loop of the worker. *)
Inductive Step :=
| Post (req : PostRequest) (env : Env)
| Get (oid : string) (env : Env)
| Turn (it : Iteration).

Definition step (s : Step) (wk : Worker) (w : World)
  : Worker * World * list Event :=
  match s with
  | Post req env => let '(_, w', t) := post_order req env w in (wk, w', t)
  | Get oid env => let '(_, w', t) := get_order oid env w in (wk, w', t)
  | Turn it =>
      match wk with
      | Looping c => iteration it c w
      | Exited => (Exited, w, [])
      end
  end.

Fixpoint run (steps : list Step) (wk : Worker) (w : World)
  : Worker * World * list Event :=
  match steps with
  | [] => (wk, w, [])
  | s :: steps' =>
      let '(wk1, w1, t1) := step s wk w in
      let '(wk2, w2, t2) := run steps' wk1 w1 in
      (wk2, w2, t1 ++ t2)
  end.

End System.

(** The ids of the entries the reads of a trace returned, in order. *)
Definition delivered_ids (t : list Event) : list Z :=
  flat_map (fun ev => match ev with Delivered ids => ids | _ => [] end) t.

(** ** Instances for running the model *)

(** On order ids of ASCII letters, digits, [_] and [-] the collation
    compares without regard to case. *)
Definition ascii_lower (c : ascii) : ascii :=
  let n := JsNumber.code c in
  if (65 <=? n) && (n <=? 90) then ascii_of_N (Z.to_N (n + 32)) else c.

Definition ascii_ci : Collation :=
  fun s => string_of_list_ascii (map ascii_lower (list_ascii_of_string s)).

(** The value of an integral Number. *)
Definition integral_value (x : spec_float) : option Z :=
  match x with
  | S754_zero _ => Some 0
  | S754_finite s m e =>
      let n := if 0 <=? e then Z.pos m * 2 ^ e
               else if Z.pos m mod 2 ^ (- e) =? 0 then Z.pos m / 2 ^ (- e)
               else 0 in
      if n =? 0 then None else Some (if s then - n else n)
  | _ => None
  end.

(** [toString] of an integral Number below 10^21 gives its decimal digits;
    the examples below format no other Number, and this instance gives
    the empty text for them. *)
Definition integral_toString : NumberToString :=
  fun x =>
    match integral_value x with
    | Some n => if Z.abs n <? 10 ^ 21 then pretty n else ""
    | None => ""
    end.

(** In the scenarios a parameter of the query that is not a string meets
    tables in which no order id reads as the number of the parameter: no
    row is found. *)
Definition no_loose_match : LooseLookup := fun _ _ => [].

(** An empty world, and an environment in which no call throws. *)
Definition empty_world : World :=
  {| cache := ∅; stream := []; orders := {| rows := ∅; auto_increment := 1 |} |}.

Definition calm (db_time : Z) (js_time : string) : Env :=
  {| redis_get_throws := false; redis_expire_throws := false;
     redis_setex_throws := false; redis_xadd_throws := false;
     db_query_throws := false; db_now := db_time; js_now := js_time |}.

(** ** The words of the specification, and inputs for the scenarios *)

(** [[A-Za-z0-9_-]{1,100}]. *)
Definition matches_order_id_pattern (s : string) : Prop :=
  1 <= str_length s <= 100
  /\ Forall (fun c => order_id_char c = true) (list_ascii_of_string s).



Definition is_duplicate_error (r : Result Response) : Prop :=
  exists b, r = Ok {| status_code := 409; body := b |}.

Definition is_accepted (r : Result Response) : Prop :=
  exists b, r = Ok {| status_code := 201; body := b |}.

(** No call of the environment throws. *)
Definition no_fault (env : Env) : Prop :=
  redis_get_throws env = false /\ redis_expire_throws env = false
  /\ redis_setex_throws env = false /\ redis_xadd_throws env = false
  /\ db_query_throws env = false.

(** The checks of [post_order] on the order id and on the amount, each
    for a value that is not falsy and whose conversion does not throw. *)
Definition order_id_check `{NumberToString} (v : JsValue) : bool :=
  negb (negb (order_id_regex_test (ToString v)) || length_gt v 100).

Definition amount_check `{NumberToString} (v : JsValue) : bool :=
  negb (negb (JsNumber.isFinite (ToNumber v))
        || JsNumber.leb (ToNumber v) ZERO
        || JsNumber.gtb (ToNumber v) MAX_AMOUNT).

(** A request passes the checks of [post_order] that come before any
    call, in their order: no conversion it reaches throws, and no check
    answers 400. *)
Definition post_checks `{NumberToString} (req : PostRequest) : bool :=
  ToBoolean (body_order_id req) && ToBoolean (body_amount req)
  && negb (conversion_throws (body_order_id req))
  && order_id_check (body_order_id req)
  && negb (conversion_throws (body_amount req))
  && amount_check (body_amount req).

(** A request reaches a conversion that throws, before any call: that of
    the order id, or, the order id passing its check, that of the
    amount. *)
Definition post_throws `{NumberToString} (req : PostRequest) : bool :=
  ToBoolean (body_order_id req) && ToBoolean (body_amount req)
  && (conversion_throws (body_order_id req)
      || (order_id_check (body_order_id req)
          && conversion_throws (body_amount req))).





(** The request of the scenarios: order [ord-1] with an amount. *)
Definition submit_ord1 (n : Z) : PostRequest :=
  {| body_order_id := JsStr "ord-1"; body_amount := JsNum (JsNumber.of_Z n);
     request_ip := Some "10.0.0.7" |}.

(** The order of a message that passes the checks of [process_message]:
    its id and the Number its amount reads as. *)
Definition decode_order (fields : list string) : option (string * spec_float) :=
  let data := decode_fields fields in
  match data !! "order_id", data !! "amount" with
  | Some oid, Some txt =>
      if truthy (Some oid) && truthy (Some txt)
         && JsNumber.isFinite (JsNumber.of_string txt)
         && negb (JsNumber.leb (JsNumber.of_string txt) ZERO)
      then Some (oid, JsNumber.of_string txt)
      else None
  | _, _ => None
  end.

(** [round(x, 4)] in the words of the specification, for an exact
    quantity [x] that is not negative: the decimal of four places closest
    to [x], a tie going up, as a number of ten-thousandths. *)
Definition spec_round4 (x : Q) : Z :=
  Qfloor (Qplus (Qmult x (Qmake 10000 1)) (Qmake 1 2)).

(** [tax = round(amount * TAX_RATE, 4)] and [total = round(amount + tax,
    4)] of the specification, with the rate 0.18, for an exact amount. *)
Definition spec_tax (a : Q) : Z := spec_round4 (Qmult a (Qmake 18 100)).

Definition spec_total (a : Q) : Z :=
  spec_round4 (Qplus a (Qmake (spec_tax a) 10000)).

(** An entry that misses [order_id] or [amount], or whose amount is not
    finite or not positive. *)
Definition malformed (e : list (string * string)) : Prop :=
  let data := decode_fields (flat_fields e) in
  data !! "order_id" = None
  \/ data !! "amount" = None
  \/ exists txt, data !! "amount" = Some txt
       /\ (JsNumber.isFinite (JsNumber.of_string txt) = false
           \/ JsNumber.leb (JsNumber.of_string txt) ZERO = true).

(** An [async] body that reads nothing from the stream, and at most adds
    entries to it. *)
Definition appends_only {A} (m : Eff A) : Prop :=
  forall env w,
    (length (stream w) <= length (stream (m env w).1.2))%nat
    /\ delivered_ids (m env w).2 = [].

(** Environments in which one kind of call throws. *)
Definition cache_read_down (db_time : Z) (js_time : string) : Env :=
  {| redis_get_throws := true; redis_expire_throws := false;
     redis_setex_throws := false; redis_xadd_throws := false;
     db_query_throws := false; db_now := db_time; js_now := js_time |}.

Definition cache_write_down (db_time : Z) (js_time : string) : Env :=
  {| redis_get_throws := false; redis_expire_throws := false;
     redis_setex_throws := true; redis_xadd_throws := false;
     db_query_throws := false; db_now := db_time; js_now := js_time |}.

Definition cache_refresh_down (db_time : Z) (js_time : string) : Env :=
  {| redis_get_throws := false; redis_expire_throws := true;
     redis_setex_throws := false; redis_xadd_throws := false;
     db_query_throws := false; db_now := db_time; js_now := js_time |}.

Definition db_down (db_time : Z) (js_time : string) : Env :=
  {| redis_get_throws := false; redis_expire_throws := false;
     redis_setex_throws := false; redis_xadd_throws := false;
     db_query_throws := true; db_now := db_time; js_now := js_time |}.

(** An entry of the stream for an order, met in an environment. *)
Definition order_entry (oid amount_text : string) : list (string * string) :=
  [("order_id", oid); ("amount", amount_text)].

Definition delivery (e : list (string * string)) (env : Env) : Delivery :=
  {| entry := e; entry_env := env; shutting_down := false |}.

(** A turn of the loop with no shutdown and a read that does not throw. *)
Definition turn (ds : list Delivery) : Iteration :=
  {| loop_shutting_down := false; xread_throws := false; arrivals := ds;
     catch_shutting_down := false |}.

(** ** Further words, for the read path, the table and the loop *)

(** The value of a property of a document. *)
Fixpoint doc_field (k : string) (o : list (string * Json)) : option Json :=
  match o with
  | [] => None
  | (k', v) :: o' => if String.eqb k' k then Some v else doc_field k o'
  end.

(** The checks of [get_order] that come before any call. *)
Definition get_checks (oid : string) : bool :=
  negb (negb (truthy (Some oid)) || (str_trim_length oid =? 0))
  && negb (negb (order_id_regex_test oid) || (100 <? str_length oid)).

(** What [get_order] does once the cache has not served the order: the
    query of the table and what follows it, after the events [t]. *)
Definition get_from_table `{Collation} (oid : string) (env : Env) (w : World)
    (t : list Event) : Result Response * World * list Event :=
  let t' := t ++ [Logged (LogCacheMiss oid); Called (DbSelectOrder oid)] in
  if db_query_throws env then
    (Ok {| status_code := 500;
           body := ErrFailedToRetrieve oid (js_now env) |}, w,
     t' ++ [Logged (LogErrorRetrieving oid)])
  else
    match find_order oid (orders w) with
    | None => (Ok {| status_code := 404; body := ErrNotFound oid |}, w, t')
    | Some r =>
        let doc := enrich r (js_now env) in
        let res := Ok {| status_code := 200; body := OrderDocument doc |} in
        let setex := Called (RedisSetex (cache_key oid) CACHE_TTL doc) in
        if redis_setex_throws env then
          (res, w,
           t' ++ [setex; Logged (LogFailedToCache oid);
                  Logged (LogServedFromDatabase oid)])
        else
          (res,
           with_cache (fun c => <[cache_key oid := (doc, CACHE_TTL)]> c) w,
           t' ++ [setex; Logged (LogCached oid);
                  Logged (LogServedFromDatabase oid)])
    end.

(** The table as the schema keeps it: a row stands under the collation key
    of its [order_id], its [id] is below the next AUTO_INCREMENT value, and
    no two rows share an [id]. *)
Definition table_wf `{Collation} (t : Table) : Prop :=
  (forall k r, rows t !! k = Some r ->
     collation_key (order_id r) = k /\ id r < auto_increment t)
  /\ (forall k1 k2 r1 r2,
        rows t !! k1 = Some r1 -> rows t !! k2 = Some r2 ->
        id r1 = id r2 -> k1 = k2).

(** Every row of the table has status completed. *)
Definition all_completed (t : Table) : Prop :=
  forall k r, rows t !! k = Some r -> status r = completed.

(** The delays the loop announces before it waits. *)
Definition waits (t : list Event) : list Z :=
  flat_map (fun ev => match ev with
                      | Logged (LogWaiting d) => [d]
                      | _ => []
                      end) t.

(** An [async] body that keeps a relation between the world it starts
    from and the world it leaves, and whose events are all of a kind. *)
Definition keeps {A} (R : World -> World -> Prop) (Q : list Event -> Prop)
    (m : Eff A) : Prop :=
  forall env w, R w (m env w).1.2 /\ Q (m env w).2.

(** A turn of the loop whose read throws. *)
Definition failed_read : Iteration :=
  {| loop_shutting_down := false; xread_throws := true; arrivals := [];
     catch_shutting_down := false |}.

(** Nothing is lost between two worlds: every row and every cache entry of
    the first has one under the same key in the second. *)
Definition nothing_lost (w w' : World) : Prop :=
  (forall k, is_Some (rows (orders w) !! k) -> is_Some (rows (orders w') !! k))
  /\ (forall k, is_Some (cache w !! k) -> is_Some (cache w' !! k)).

(** Inputs for the scenarios of the read path: the row the worker writes
    for [ord-1] with amount 100 at time 1000, a world whose table holds it
    and whose cache is empty, and a world whose cache holds a document for
    [ord-1] with 120 seconds to live and whose table is empty. *)
Definition row_ord1 : OrderRow :=
  {| id := 1; order_id := "ord-1"; amount := 1000000;
     tax := 180000; total := 1180000;
     status := completed; created_at := 1000; updated_at := 1000;
     processed_at := Some 1000 |}.

Definition stored_world : World :=
  {| cache := ∅; stream := [];
     orders := {| rows := {[ "ord-1" := row_ord1 ]}; auto_increment := 2 |} |}.

Definition doc_ord1 : list (string * Json) :=
  [("order_id", JStr "ord-1"); ("status", JStr "completed");
   ("cache_hit", JBool false)].

Definition cached_world : World :=
  {| cache := {[ cache_key "ord-1" := (doc_ord1, 120) ]}; stream := [];
     orders := orders empty_world |}.

(** * Properties *)

(** ** Numbers and strings *)

Lemma literals :
  MAX_AMOUNT = JsNumber.of_string "999999.9999"
  /\ ZERO = JsNumber.of_string "0"
  /\ TAX_RATE = JsNumber.of_string "0.18"
  /\ TEN_THOUSAND = JsNumber.of_string "10000".
Proof. vm_compute. repeat split. Qed.




Lemma String_length_list (s : string) :
  String.length s = length (list_ascii_of_string s).
Proof. induction s; cbn; congruence. Qed.


(** ** The pattern of an order id and the range of an amount, as the
       specification words them *)

(** The two checks of the handlers on a string are the pattern. *)
Lemma order_id_checks_pattern (s : string) :
  negb (order_id_regex_test s) || (100 <? str_length s) = false
  <-> matches_order_id_pattern s.
Proof.
  unfold matches_order_id_pattern, order_id_regex_test, str_length.
  rewrite String_length_list, orb_false_iff, negb_false_iff, Z.ltb_ge.
  destruct (list_ascii_of_string s) as [|c l] eqn:E.
  - cbn. split; [intros [? _]; discriminate | intros [? _]; lia].
  - rewrite forallb_forall, List.Forall_forall.
    split; [intros [? ?] | intros [[? ?] ?]]; repeat split; auto.
    cbn [length]. lia.
Qed.



(** ** Running an [async] body *)

Ltac eff_unfold :=
  unfold respond, console, ask, throw, call, try_catch,
    mbind, mret, eff_mbind, eff_mret, eff_bind, eff_ret in *.

Lemma regex_test_nonempty (s : string) :
  order_id_regex_test s = true -> String.eqb s "" = false.
Proof. destruct s; [discriminate | reflexivity]. Qed.


Section ApiFacts.
Context `{NumberToString} `{Collation} `{LooseLookup}.








(** A request that does not pass the checks and reaches no conversion
    that throws is answered 400 with no call made. *)
Lemma post_order_rejected (req : PostRequest) (env : Env) (w : World) :
  post_checks req = false ->
  post_throws req = false ->
  exists b, post_order req env w
            = (Ok {| status_code := 400; body := b |}, w, []).
Proof.
  unfold post_checks, post_throws, order_id_check, amount_check.
  unfold post_order, to_string, to_number. eff_unfold. cbv zeta.
  destruct (ToBoolean (body_order_id req)); [|eauto].
  destruct (ToBoolean (body_amount req)); [|eauto].
  cbn [negb andb orb].
  destruct (conversion_throws (body_order_id req)); [discriminate|].
  cbn [negb andb orb].
  destruct (negb (order_id_regex_test (ToString (body_order_id req)))
            || length_gt (body_order_id req) 100); [eauto|].
  cbn [negb andb orb].
  destruct (conversion_throws (body_amount req)); [discriminate|].
  cbn [negb andb orb].
  destruct (negb (JsNumber.isFinite (ToNumber (body_amount req)))
            || JsNumber.leb (ToNumber (body_amount req)) ZERO
            || JsNumber.gtb (ToNumber (body_amount req)) MAX_AMOUNT);
    [eauto | discriminate].
Qed.

(** A request that reaches a conversion that throws is answered 500 with
    no call made. *)
Lemma post_order_throws (req : PostRequest) (env : Env) (w : World) :
  post_throws req = true ->
  post_order req env w
  = (Ok {| status_code := 500; body := ErrFailedToQueue (js_now env) |}, w,
     [Logged LogErrorCreating]).
Proof.
  unfold post_throws, order_id_check.
  unfold post_order, to_string, to_number. eff_unfold. cbv zeta.
  destruct (ToBoolean (body_order_id req)); [|discriminate].
  destruct (ToBoolean (body_amount req)); [|discriminate].
  cbn [negb andb orb].
  destruct (conversion_throws (body_order_id req)); [reflexivity|].
  cbn [negb andb orb].
  destruct (negb (order_id_regex_test (ToString (body_order_id req)))
            || length_gt (body_order_id req) 100); [discriminate|].
  cbn [negb andb orb].
  destruct (conversion_throws (body_amount req)); [reflexivity|discriminate].
Qed.

(** What [post_order] does with a request that passes the checks. *)
Lemma post_order_passed (req : PostRequest) (env : Env) (w : World) :
  post_checks req = true ->
  post_order req env w =
    let v := body_order_id req in
    let oid := ToString v in
    let n := ToNumber (body_amount req) in
    let failed := Ok {| status_code := 500;
                        body := ErrFailedToQueue (js_now env) |} in
    let get := Called (RedisGet (cache_key oid)) in
    let sel := Called (DbSelectStatus v) in
    let args := stream_args oid n (js_now env) (request_ip req) in
    if redis_get_throws env then (failed, w, [get; Logged LogErrorCreating])
    else
      match cache w !! cache_key oid with
      | Some (doc, _) =>
          (Ok {| status_code := 409; body := ErrOrderExists v doc |}, w, [get])
      | None =>
          if db_query_throws env
          then (failed, w, [get; sel; Logged LogErrorCreating])
          else
            match select_rows v (orders w) with
            | r :: _ =>
                (Ok {| status_code := 409;
                       body := ErrOrderExistsInDb v (status r) |}, w,
                 [get; sel])
            | [] =>
                if redis_xadd_throws env
                then (failed, w,
                      [get; sel; Called (RedisXadd "orders_stream" args);
                       Logged LogErrorCreating])
                else
                  (Ok {| status_code := 201;
                         body := Queued v n (js_now env) |},
                   {| cache := cache w;
                      stream := stream w ++ [pairs_of args];
                      orders := orders w |},
                   [get; sel; Called (RedisXadd "orders_stream" args);
                    Logged (LogQueued oid n)])
            end
      end.
Proof.
  intros Hchecks. unfold post_checks in Hchecks.
  apply andb_prop in Hchecks as [Hchecks Hamount].
  apply andb_prop in Hchecks as [Hchecks Hta].
  apply andb_prop in Hchecks as [Hchecks Hformat].
  apply andb_prop in Hchecks as [Hchecks Hto].
  apply andb_prop in Hchecks as [Htruthy Htruthy'].
  unfold order_id_check, amount_check in *.
  apply negb_true_iff in Hformat, Hamount, Hto, Hta.
  unfold post_order, to_string, to_number, redis_get, db_select_status,
    redis_xadd.
  eff_unfold. cbv zeta.
  rewrite Htruthy, Htruthy', Hto, Hta. cbn [negb orb].
  rewrite Hformat, Hamount.
  destruct (redis_get_throws env); [reflexivity|].
  destruct (cache w !! cache_key (ToString (body_order_id req)))
    as [[doc ttl]|]; [reflexivity|].
  cbn -[stream_args ToNumber ToString cache_key select_rows].
  destruct (db_query_throws env); [reflexivity|].
  destruct (select_rows (body_order_id req) (orders w)) as [|r rs];
    [|reflexivity].
  cbn -[stream_args ToNumber ToString cache_key select_rows].
  destruct (redis_xadd_throws env); reflexivity.
Qed.

(** The same for a request whose order id is a string: the table is
    looked up under the key of the string. *)
Lemma post_order_checked (req : PostRequest) (oid : string) (env : Env)
    (w : World) :
  body_order_id req = JsStr oid ->
  post_checks req = true ->
  post_order req env w =
    let n := ToNumber (body_amount req) in
    let failed := Ok {| status_code := 500;
                        body := ErrFailedToQueue (js_now env) |} in
    let get := Called (RedisGet (cache_key oid)) in
    let sel := Called (DbSelectStatus (JsStr oid)) in
    let args := stream_args oid n (js_now env) (request_ip req) in
    if redis_get_throws env then (failed, w, [get; Logged LogErrorCreating])
    else
      match cache w !! cache_key oid with
      | Some (doc, _) =>
          (Ok {| status_code := 409; body := ErrOrderExists (JsStr oid) doc |},
           w, [get])
      | None =>
          if db_query_throws env
          then (failed, w, [get; sel; Logged LogErrorCreating])
          else
            match find_order oid (orders w) with
            | Some r =>
                (Ok {| status_code := 409;
                       body := ErrOrderExistsInDb (JsStr oid) (status r) |}, w,
                 [get; sel])
            | None =>
                if redis_xadd_throws env
                then (failed, w,
                      [get; sel; Called (RedisXadd "orders_stream" args);
                       Logged LogErrorCreating])
                else
                  (Ok {| status_code := 201;
                         body := Queued (JsStr oid) n (js_now env) |},
                   {| cache := cache w;
                      stream := stream w ++ [pairs_of args];
                      orders := orders w |},
                   [get; sel; Called (RedisXadd "orders_stream" args);
                    Logged (LogQueued oid n)])
            end
      end.
Proof.
  intros Hoid Hchecks. rewrite (post_order_passed req env w Hchecks).
  cbv zeta. rewrite Hoid. cbn [ToString select_rows].
  destruct (redis_get_throws env); [reflexivity|].
  destruct (cache w !! cache_key oid) as [[doc ttl]|]; [reflexivity|].
  destruct (db_query_throws env); [reflexivity|].
  by destruct (find_order oid (orders w)).
Qed.


(** A request that passes the checks passes that of the order id and
    that of the amount. *)
Lemma post_checks_parts (req : PostRequest) :
  post_checks req = true ->
  order_id_check (body_order_id req) = true
  /\ amount_check (body_amount req) = true.
Proof.
  unfold post_checks.
  destruct (ToBoolean (body_order_id req)), (ToBoolean (body_amount req)),
    (conversion_throws (body_order_id req)),
    (order_id_check (body_order_id req)),
    (conversion_throws (body_amount req)),
    (amount_check (body_amount req)); cbn; auto; discriminate.
Qed.

(** The three ways of a request through the checks. *)
Lemma post_checks_cases (req : PostRequest) :
  (post_checks req = true /\ post_throws req = false)
  \/ (post_checks req = false /\ post_throws req = true)
  \/ (post_checks req = false /\ post_throws req = false).
Proof.
  unfold post_checks, post_throws.
  destruct (ToBoolean (body_order_id req)), (ToBoolean (body_amount req)),
    (conversion_throws (body_order_id req)),
    (order_id_check (body_order_id req)),
    (conversion_throws (body_amount req)),
    (amount_check (body_amount req)); cbn; auto.
Qed.


End ApiFacts.

Section ApiTheorems.
Context `{NumberToString} `{Collation} `{LooseLookup}.


End ApiTheorems.

(** ** The worker, message by message *)

Section WorkerFacts.
Context `{Collation}.

(** A message that fails a check leaves one line on the console and
    nothing else. *)
Lemma process_message_malformed (messageId : Z) (fields : list string)
    (c : Z) (env : Env) (w : World) :
  decode_order fields = None ->
  exists l,
    process_message messageId fields c env w = (Ok c, w, [Logged l])
    /\ (l = LogInvalidMessageData (decode_fields fields)
        \/ exists oid txt, l = LogInvalidAmount oid txt).
Proof.
  unfold decode_order, process_message. eff_unfold.
  destruct (decode_fields fields !! "order_id") as [oid|];
    [|intros _; eexists; split; [reflexivity | by left]].
  destruct (decode_fields fields !! "amount") as [txt|];
    [|intros _; rewrite orb_true_r; eexists; split; [reflexivity | by left]].
  destruct (truthy (Some oid)); cbn [negb orb andb];
    [|intros _; eexists; split; [reflexivity | by left]].
  destruct (truthy (Some txt)); cbn [negb orb andb];
    [|intros _; eexists; split; [reflexivity | by left]].
  cbn [default from_option Datatypes.id].
  destruct (JsNumber.isFinite (JsNumber.of_string txt)); cbn [negb orb andb];
    [|intros _; eexists; split; [reflexivity | right; eauto]].
  destruct (JsNumber.leb (JsNumber.of_string txt) ZERO); cbn [negb];
    [intros _; eexists; split; [reflexivity | right; eauto] | discriminate].
Qed.

(** What [process_message] does with a message that passes the checks. *)
Lemma process_message_well_formed (messageId : Z) (fields : list string)
    (c : Z) (env : Env) (w : World) (oid : string) (n : spec_float) :
  decode_order fields = Some (oid, n) ->
  process_message messageId fields c env w =
    let tx := compute_tax n in
    let tot := compute_total n tx in
    let doc := orderData (decode_fields fields) oid n tx tot (js_now env) in
    let start := [Logged (LogProcessingOrder oid n tx tot);
                  Called (DbUpsert oid n tx tot)] in
    let w1 := {| cache := cache w; stream := stream w;
                 orders := upsert_order (db_now env) oid n tx tot (orders w) |} in
    if db_query_throws env
    then (Throw (ReferenceError "data"), w, start)
    else if redis_setex_throws env
    then (Throw (ReferenceError "data"), w1,
          start ++ [Called (RedisSetex (cache_key oid) CACHE_TTL doc)])
    else (Ok 0,
          with_cache (fun k => <[cache_key oid := (doc, CACHE_TTL)]> k) w1,
          start ++ [Called (RedisSetex (cache_key oid) CACHE_TTL doc);
                    Logged (LogProcessedSuccessfully oid)]).
Proof.
  unfold decode_order, process_message, db_upsert, redis_setex. eff_unfold.
  destruct (decode_fields fields !! "order_id") as [o|]; [|discriminate].
  destruct (decode_fields fields !! "amount") as [txt|]; [|discriminate].
  destruct (truthy (Some o)); [|discriminate].
  destruct (truthy (Some txt)); [|discriminate].
  cbn [negb orb andb default from_option Datatypes.id].
  destruct (JsNumber.isFinite (JsNumber.of_string txt)); [|discriminate].
  destruct (JsNumber.leb (JsNumber.of_string txt) ZERO); [discriminate|].
  cbn [negb orb andb]. intros [= <- <-].
  destruct (db_query_throws env); [reflexivity|].
  destruct (redis_setex_throws env); reflexivity.
Qed.

(** The messages of a reply one after the other. *)
Lemma process_messages_app (pre post : list ((Z * list (string * string)) * Delivery))
    (c : Z) (w : World) :
  process_messages (pre ++ post) c w =
    match process_messages pre c w with
    | (Completed, c1, w1, t1) =>
        let '(f, c2, w2, t2) := process_messages post c1 w1 in
        (f, c2, w2, t1 ++ t2)
    | other => other
    end.
Proof.
  revert c w. induction pre as [|[[mid e] d] pre IH]; intros c w.
  - cbn. by destruct (process_messages post c w) as [[[f c2] w2] t2].
  - cbn [app process_messages].
    destruct (shutting_down d); [reflexivity|].
    destruct ((console (LogProcessingMessage mid);;
               process_message mid (flat_fields e) c) (entry_env d) w)
      as [[[c1|err] w1] t1]; [|reflexivity].
    rewrite IH.
    destruct (process_messages pre c1 w1) as [[[[] c2] w2] t2];
      try reflexivity.
    destruct (process_messages post c2 w2) as [[[f c3] w3] t3].
    by rewrite app_assoc.
Qed.

(** When the upsert of a message succeeds and its cache write throws, the
    error that leaves the handler ends the loop over the reply: the
    messages after it are not processed, and the error count is the one
    the message started with. *)
Lemma cache_failure_ends_reply (messageId : Z) (e : list (string * string))
    (d : Delivery) (rest : list ((Z * list (string * string)) * Delivery))
    (c : Z) (w : World) (oid : string) (n : spec_float) :
  decode_order (flat_fields e) = Some (oid, n) ->
  shutting_down d = false ->
  db_query_throws (entry_env d) = false ->
  redis_setex_throws (entry_env d) = true ->
  exists t,
    process_messages (((messageId, e), d) :: rest) c w =
      (Thrown (ReferenceError "data"), c,
       {| cache := cache w; stream := stream w;
          orders := upsert_order (db_now (entry_env d)) oid n (compute_tax n)
                      (compute_total n (compute_tax n)) (orders w) |},
       t).
Proof.
  intros Hd Hrun Hdb Hsetex. cbn [process_messages]. rewrite Hrun.
  unfold mbind, eff_mbind, eff_bind, console.
  rewrite (process_message_well_formed _ _ _ _ _ _ _ Hd). cbv zeta.
  rewrite Hdb, Hsetex. eauto.
Qed.

End WorkerFacts.

(** ** The table under the upsert *)

Section StoreFacts.
Context `{Collation}.

(** The row of the key after the upsert. *)
Lemma find_order_upsert (now : Z) (oid : string) (a tx tot : spec_float)
    (t : Table) :
  find_order oid (upsert_order now oid a tx tot t) =
    Some match find_order oid t with
         | None =>
             {| id := auto_increment t; order_id := oid;
                amount := sql_decimal a; tax := sql_decimal tx;
                total := sql_decimal tot; status := completed;
                created_at := now; updated_at := now;
                processed_at := Some now |}
         | Some r =>
             {| id := id r; order_id := order_id r;
                amount := sql_decimal a; tax := sql_decimal tx;
                total := sql_decimal tot; status := completed;
                created_at := created_at r; updated_at := now;
                processed_at := Some now |}
         end.
Proof.
  unfold find_order, upsert_order. cbn [rows].
  by rewrite lookup_insert_eq.
Qed.

(** The rows of the other keys stay as they are. *)
Lemma find_order_upsert_other (now : Z) (oid oid' : string)
    (a tx tot : spec_float) (t : Table) :
  collation_key oid' <> collation_key oid ->
  find_order oid' (upsert_order now oid a tx tot t) = find_order oid' t.
Proof.
  intros Hne. unfold find_order, upsert_order. cbn [rows].
  by rewrite lookup_insert_ne.
Qed.

(** The table a message that passes the checks leaves, when the upsert
    does not throw: the outcome of the cache write does not matter. *)
Lemma process_message_orders (messageId : Z) (fields : list string)
    (c : Z) (env : Env) (w : World) (oid : string) (n : spec_float) :
  decode_order fields = Some (oid, n) ->
  db_query_throws env = false ->
  orders (process_message messageId fields c env w).1.2 =
    upsert_order (db_now env) oid n (compute_tax n)
      (compute_total n (compute_tax n)) (orders w).
Proof.
  intros Hd Hdb.
  rewrite (process_message_well_formed _ _ _ _ _ _ _ Hd). cbv zeta.
  rewrite Hdb. by destruct (redis_setex_throws env).
Qed.

End StoreFacts.

Lemma malformed_decode_order (e : list (string * string)) :
  malformed e -> decode_order (flat_fields e) = None.
Proof.
  unfold malformed, decode_order.
  intros [-> | [-> | (txt & -> & Hbad)]]; [reflexivity| |].
  - by destruct (_ !! "order_id").
  - destruct (_ !! "order_id"); [|reflexivity].
    destruct Hbad as [-> | ->];
      by rewrite ?andb_false_r, ?andb_false_l.
Qed.

Section WorkerTheorems.
Context `{Collation}.

(** C5. Processing the same event twice, the upsert succeeding both
    times, leaves for the order a row whose [order_id], [amount], [tax],
    [total] and status are those of the row the first time left: the
    values stored for the amount of the event and for the tax and the
    total computed from it, and completed. The row also keeps its [id]
    and its [created_at]. [updated_at] and [processed_at] are each time
    the database time of the upsert, as the upsert sets them, so the two
    rows are one and the same exactly when the two upserts run at the
    same database time. *)
Theorem C5_redelivery_same_row (messageId messageId' : Z)
    (fields : list string) (c c' : Z) (env1 env2 : Env) (w : World)
    (oid : string) (n : spec_float) :
  decode_order fields = Some (oid, n) ->
  db_query_throws env1 = false ->
  db_query_throws env2 = false ->
  let once := (process_message messageId fields c env1 w).1.2 in
  let twice := (process_message messageId' fields c' env2 once).1.2 in
  exists r1 r2,
    find_order oid (orders once) = Some r1
    /\ find_order oid (orders twice) = Some r2
    /\ order_id r2 = order_id r1
    /\ amount r2 = amount r1 /\ amount r1 = sql_decimal n
    /\ tax r2 = tax r1 /\ tax r1 = sql_decimal (compute_tax n)
    /\ total r2 = total r1
    /\ total r1 = sql_decimal (compute_total n (compute_tax n))
    /\ status r2 = completed /\ status r1 = completed
    /\ id r2 = id r1 /\ created_at r2 = created_at r1
    /\ updated_at r1 = db_now env1 /\ processed_at r1 = Some (db_now env1)
    /\ updated_at r2 = db_now env2 /\ processed_at r2 = Some (db_now env2)
    /\ (r2 = r1 <-> db_now env2 = db_now env1).
Proof.
  intros Hd Hdb1 Hdb2 once twice. subst twice once.
  rewrite (process_message_orders _ _ _ env2 _ _ _ Hd Hdb2).
  rewrite (process_message_orders _ _ _ env1 _ _ _ Hd Hdb1).
  rewrite !find_order_upsert.
  eexists _, _. split; [reflexivity|]. split; [reflexivity|].
  destruct (find_order oid (orders w)) as [r|]; cbn [id order_id amount tax
    total status created_at updated_at processed_at];
    repeat (split; [reflexivity|]);
    (split; [intros [= ->]; reflexivity | intros ->; reflexivity]).
Qed.

(** C10. When a message is processed for an order id whose row exists
    and the upsert does not throw, the row of that order id afterwards
    has the new [amount], [tax] and [total], as the columns store them,
    status completed, and [processed_at] and [updated_at] at the database
    time; its [id], its [order_id] and its [created_at] are those it had;
    and the rows of the other keys are as they were. *)
Theorem C10_reprocessing_keeps_id_and_created_at (messageId : Z)
    (fields : list string) (c : Z) (env : Env) (w : World)
    (oid : string) (n : spec_float) (r : OrderRow) :
  decode_order fields = Some (oid, n) ->
  db_query_throws env = false ->
  find_order oid (orders w) = Some r ->
  let w' := (process_message messageId fields c env w).1.2 in
  find_order oid (orders w') =
    Some {| id := id r; order_id := order_id r;
            amount := sql_decimal n; tax := sql_decimal (compute_tax n);
            total := sql_decimal (compute_total n (compute_tax n));
            status := completed;
            created_at := created_at r;
            updated_at := db_now env;
            processed_at := Some (db_now env) |}
  /\ forall oid', collation_key oid' <> collation_key oid ->
       find_order oid' (orders w') = find_order oid' (orders w).
Proof.
  intros Hd Hdb Hr w'. subst w'.
  rewrite (process_message_orders _ _ _ env _ _ _ Hd Hdb).
  split.
  - by rewrite find_order_upsert, Hr.
  - intros oid' Hne. by apply find_order_upsert_other.
Qed.

End WorkerTheorems.

Section AdmissionTheorems.
Context `{NumberToString} `{Collation} `{LooseLookup}.

(** C9. [get_order] answers an order id that is empty or does not match
    [[A-Za-z0-9_-]{1,100}] with status 400, and has then made no call:
    neither the cache nor the table is consulted, and the world is as it
    was. *)
Theorem C9_get_order_validation (oid : string) (env : Env) (w : World) :
  oid = "" \/ ~ matches_order_id_pattern oid ->
  exists b, get_order oid env w
            = (Ok {| status_code := 400; body := b |}, w, []).
Proof.
  intros Hbad. unfold get_order. eff_unfold.
  destruct (negb (truthy (Some oid)) || (str_trim_length oid =? 0)) eqn:He;
    [eauto|].
  destruct (negb (order_id_regex_test oid) || (100 <? str_length oid)) eqn:Hf;
    [eauto|].
  exfalso. destruct Hbad as [-> | Hn].
  - discriminate He.
  - by apply Hn, order_id_checks_pattern.
Qed.

(** When the lookup in the cache throws, a request that passes the
    checks is answered 500 after that one call. *)
Lemma post_order_cache_failure (req : PostRequest) (oid : string)
    (env : Env) (w : World) :
  body_order_id req = JsStr oid ->
  post_checks req = true ->
  redis_get_throws env = true ->
  post_order req env w =
    (Ok {| status_code := 500; body := ErrFailedToQueue (js_now env) |}, w,
     [Called (RedisGet (cache_key oid)); Logged LogErrorCreating]).
Proof.
  intros Hoid Hchecks Hget.
  rewrite (post_order_checked req oid env w Hoid Hchecks). cbv zeta.
  by rewrite Hget.
Qed.

(** C1 (as amended). Two requests for the same order id that pass the
    checks, with no call throwing and neither the cache nor the table
    holding the order (no event for it has been processed), are both
    accepted, each adding one entry to the stream, and neither writes the
    cache or the table. Once a message for that order id has been
    processed with a successful upsert, the second request is answered
    with the duplicate error instead. *)
Theorem C1_duplicate_only_after_processing (oid : string)
    (req1 req2 : PostRequest) (env1 env2 : Env) (w : World) :
  body_order_id req1 = JsStr oid ->
  body_order_id req2 = JsStr oid ->
  post_checks req1 = true ->
  post_checks req2 = true ->
  no_fault env1 ->
  no_fault env2 ->
  cache w !! cache_key oid = None ->
  find_order oid (orders w) = None ->
  let first := post_order req1 env1 w in
  let second := post_order req2 env2 first.1.2 in
  (is_accepted first.1.1 /\ is_accepted second.1.1
   /\ (exists e1 e2, stream second.1.2 = stream w ++ [e1; e2])
   /\ cache second.1.2 = cache w /\ orders second.1.2 = orders w)
  /\ forall messageId fields c env n,
       decode_order fields = Some (oid, n) ->
       db_query_throws env = false ->
       let processed := (process_message messageId fields c env first.1.2).1.2 in
       is_duplicate_error (post_order req2 env2 processed).1.1
       /\ (post_order req2 env2 processed).1.2 = processed.
Proof.
  intros Hoid1 Hoid2 Hc1 Hc2 (Hg1 & _ & _ & Hx1 & Hd1) (Hg2 & _ & _ & Hx2 & Hd2)
    Hcache Hstore first second.
  assert (Hfirst : post_order req1 env1 w =
    (Ok {| status_code := 201;
           body := Queued (JsStr oid) (ToNumber (body_amount req1))
                     (js_now env1) |},
     {| cache := cache w;
        stream := stream w ++ [pairs_of (stream_args oid
                    (ToNumber (body_amount req1)) (js_now env1)
                    (request_ip req1))];
        orders := orders w |},
     [Called (RedisGet (cache_key oid)); Called (DbSelectStatus (JsStr oid));
      Called (RedisXadd "orders_stream" (stream_args oid
                (ToNumber (body_amount req1)) (js_now env1)
                (request_ip req1)));
      Logged (LogQueued oid (ToNumber (body_amount req1)))])).
  { rewrite (post_order_checked req1 oid env1 w Hoid1 Hc1).
    cbv zeta. by rewrite Hg1, Hcache, Hd1, Hstore, Hx1. }
  subst second first. rewrite Hfirst. cbn [fst snd].
  split.
  - 
    rewrite (post_order_checked req2 oid env2 _ Hoid2 Hc2). cbv zeta.
    cbn [cache orders stream].
    rewrite Hg2, Hcache, Hd2, Hstore, Hx2. cbn [fst snd cache orders stream].
    split; [eexists; reflexivity|]. split; [eexists; reflexivity|].
    split; [|done].
    eexists _, _. by rewrite <- app_assoc.
  - intros messageId fields c env n Hd Hdb.
    set (processed := (process_message _ _ _ _ _).1.2).
    rewrite (post_order_checked req2 oid env2 processed Hoid2 Hc2). cbv zeta.
    rewrite Hg2, Hd2.
    assert (Hrow : is_Some (find_order oid (orders processed))).
    { subst processed.
      rewrite (process_message_orders _ _ _ env _ _ _ Hd Hdb).
      rewrite find_order_upsert. eauto. }
    destruct (cache processed !! cache_key oid) as [[doc ttl]|].
    + split; [eexists; reflexivity | reflexivity].
    + destruct Hrow as [r ->]. split; [eexists; reflexivity | reflexivity].
Qed.

End AdmissionTheorems.

(** ** What the reads of the stream return *)

Lemma delivered_ids_app (t1 t2 : list Event) :
  delivered_ids (t1 ++ t2) = delivered_ids t1 ++ delivered_ids t2.
Proof. apply flat_map_app. Qed.

Section AppendsOnly.
Context {A B : Type}.

Lemma appends_only_ret (a : A) : appends_only (mret a).
Proof. intros env w. cbn. auto. Qed.

Lemma appends_only_throw (e : Exn) : appends_only (@throw A e).
Proof. intros env w. cbn. auto. Qed.

Lemma appends_only_bind (m : Eff A) (f : A -> Eff B) :
  appends_only m -> (forall a, appends_only (f a)) ->
  appends_only (m ≫= f).
Proof.
  intros Hm Hf env w. unfold mbind, eff_mbind, eff_bind.
  specialize (Hm env w).
  destruct (m env w) as [[[a|e] w1] t1]; cbn [fst snd] in *; [|exact Hm].
  specialize (Hf a env w1).
  destruct (f a env w1) as [[r w2] t2]; cbn [fst snd] in *.
  rewrite delivered_ids_app.
  destruct Hm as [? ->], Hf as [? ->]. split; [lia | reflexivity].
Qed.

Lemma appends_only_try_catch (m : Eff A) (h : Exn -> Eff A) :
  appends_only m -> (forall e, appends_only (h e)) ->
  appends_only (try_catch m h).
Proof.
  intros Hm Hh env w. unfold try_catch.
  specialize (Hm env w).
  destruct (m env w) as [[[a|e] w1] t1]; cbn [fst snd] in *; [exact Hm|].
  specialize (Hh e env w1).
  destruct (h e env w1) as [[r w2] t2]; cbn [fst snd] in *.
  rewrite delivered_ids_app.
  destruct Hm as [? ->], Hh as [? ->]. split; [lia | reflexivity].
Qed.

Lemma appends_only_call (c : Call) (throws : Env -> bool) (e : Exn)
    (f : Env -> World -> A * World) :
  (forall env w, (length (stream w) <= length (stream (f env w).2))%nat) ->
  appends_only (call c throws e f).
Proof.
  intros Hf env w. unfold call.
  destruct (throws env); cbn [fst snd]; [auto|].
  specialize (Hf env w). destruct (f env w) as [a w']. cbn [fst snd] in *.
  auto.
Qed.

End AppendsOnly.

Lemma appends_only_console (l : LogLine) : appends_only (console l).
Proof. intros env w. cbn. auto. Qed.

Lemma appends_only_ask : appends_only ask.
Proof. intros env w. cbn. auto. Qed.

Lemma appends_only_respond (code : Z) (b : Body) : appends_only (respond code b).
Proof. intros env w. cbn. auto. Qed.

(** The calls of the handlers and of the worker, one by one. *)
Ltac appends_only_call :=
  apply appends_only_call; intros ? ?; cbn [snd stream with_cache];
  rewrite ?length_app; lia.

Ltac appends_only_step :=
  first
    [ apply appends_only_bind; [|intros ?]
    | apply appends_only_try_catch; [|intros ?]
    | apply appends_only_ret
    | apply appends_only_throw
    | apply appends_only_console
    | apply appends_only_ask
    | apply appends_only_respond
    | appends_only_call
    | match goal with
      | |- appends_only (if ?b then _ else _) => destruct b
      | |- appends_only (match ?x with _ => _ end) => destruct x
      end ].

Section StreamFacts.
Context `{NumberToString} `{Collation} `{LooseLookup}.

Lemma post_order_appends_only (req : PostRequest) :
  appends_only (post_order req).
Proof.
  unfold post_order, to_string, to_number, redis_get, db_select_status,
    redis_xadd.
  repeat appends_only_step.
Qed.

Lemma get_order_appends_only (oid : string) : appends_only (get_order oid).
Proof.
  unfold get_order, redis_get, redis_expire, redis_setex, db_select_order.
  repeat appends_only_step.
Qed.

Lemma process_message_appends_only (messageId : Z) (fields : list string)
    (c : Z) :
  appends_only (process_message messageId fields c).
Proof.
  unfold process_message, db_upsert, redis_setex.
  repeat appends_only_step.
Qed.

Lemma process_messages_appends_only
    (messages : list ((Z * list (string * string)) * Delivery))
    (c : Z) (w : World) :
  (length (stream w) <= length (stream (process_messages messages c w).1.2))%nat
  /\ delivered_ids (process_messages messages c w).2 = [].
Proof.
  revert c w. induction messages as [|[[mid e] d] rest IH]; intros c w.
  - cbn. auto.
  - cbn [process_messages].
    destruct (shutting_down d); [cbn; auto|].
    assert (Hm : appends_only
              (console (LogProcessingMessage mid);;
               process_message mid (flat_fields e) c)).
    { apply appends_only_bind; [apply appends_only_console|intros _].
      apply process_message_appends_only. }
    specialize (Hm (entry_env d) w).
    destruct ((console (LogProcessingMessage mid);;
               process_message mid (flat_fields e) c) (entry_env d) w)
      as [[[c1|err] w1] t1]; cbn [fst snd] in *; [|exact Hm].
    specialize (IH c1 w1).
    destruct (process_messages rest c1 w1) as [[[f c2] w2] t2].
    cbn [fst snd] in *. rewrite delivered_ids_app.
    destruct Hm as [? ->], IH as [? ->]. split; [lia | reflexivity].
Qed.

End StreamFacts.

Section Reads.
Context {E : Type}.

Lemma filter_imap_all (P : Z * E -> Prop) `{!forall x, Decision (P x)}
    (f : nat -> E -> Z * E) (l : list E) :
  (forall i x, P (f i x)) -> filter P (imap f l) = imap f l.
Proof.
  intros Hall. revert f Hall.
  induction l as [|x l IH]; intros f Hall; [reflexivity|].
  rewrite imap_cons, filter_cons_True by apply Hall.
  f_equal. apply IH. intros i y. apply Hall.
Qed.

Lemma filter_imap_none (P : Z * E -> Prop) `{!forall x, Decision (P x)}
    (f : nat -> E -> Z * E) (l : list E) :
  (forall i x, l !! i = Some x -> ~ P (f i x)) -> filter P (imap f l) = [].
Proof.
  revert f. induction l as [|x l IH]; intros f Hnone; [reflexivity|].
  rewrite imap_cons, filter_cons_False by (by apply Hnone).
  apply IH. intros i y Hi. by apply (Hnone (S i)).
Qed.

(** The ids of [n] entries that follow an entry of id [k]. *)
Lemma following_ids (k : nat) (a : list E) :
  StronglySorted Z.lt (imap (fun i e => (Z.of_nat (k + i) + 1, e)) a).*1
  /\ Forall (fun i => Z.of_nat k < i <= Z.of_nat (k + length a))
       (imap (fun i e => (Z.of_nat (k + i) + 1, e)) a).*1.
Proof.
  revert k. induction a as [|x a IH]; intros k.
  - cbn. split; constructor.
  - rewrite imap_cons. cbn [fmap list_fmap fst].
    rewrite (imap_ext _ (fun i e => (Z.of_nat (S k + i) + 1, e)))
      by (intros i y _; cbn; do 2 f_equal; lia).
    destruct (IH (S k)) as [Hsorted Hrange].
    split.
    + constructor; [exact Hsorted|].
      eapply Forall_impl; [exact Hrange|]. cbn beta. intros i Hi. lia.
    + constructor; [cbn [length]; lia|].
      eapply Forall_impl; [exact Hrange|]. cbn beta. intros i Hi.
      cbn [length]. lia.
Qed.

End Reads.

Section ReadFacts.
Context `{NumberToString} `{Collation} `{LooseLookup}.

(** The reply of a read at [$] holds the entries added after the call
    arrived, with the ids that follow the last id of that moment, and no
    entry the stream held before. *)
Lemma xread_dollar_reply (at_call arrivals : list (list (string * string))) :
  xread_dollar at_call arrivals =
    match arrivals with
    | [] => None
    | _ => Some (imap (fun i e => (Z.of_nat (length at_call + i) + 1, e))
                   arrivals)
    end.
Proof.
  unfold xread_dollar, with_ids.
  rewrite imap_app, filter_app.
  rewrite filter_imap_none, filter_imap_all.
  - by destruct arrivals.
  - intros i x. cbn. lia.
  - intros i x Hi. apply lookup_lt_Some in Hi. cbn. lia.
Qed.

(** One turn of the loop: the ids its read returns are in increasing
    order, above the last id of the stream it started from and within
    the stream it leaves. *)
Lemma iteration_reads (it : Iteration) (c : Z) (w : World) :
  let w1 := (iteration it c w).1.2 in
  let ids := delivered_ids (iteration it c w).2 in
  (length (stream w) <= length (stream w1))%nat
  /\ StronglySorted Z.lt ids
  /\ Forall (fun i => Z.of_nat (length (stream w)) < i
                      <= Z.of_nat (length (stream w1))) ids.
Proof.
  cbv zeta. unfold iteration.
  destruct (loop_shutting_down it);
    [cbn; split; [lia|split; constructor]|].
  assert (Hinner : forall flow c1 w1 t1,
    (length (stream w) <= length (stream w1))%nat ->
    StronglySorted Z.lt (delivered_ids t1) ->
    Forall (fun i => Z.of_nat (length (stream w)) < i
                     <= Z.of_nat (length (stream w1))) (delivered_ids t1) ->
    let out :=
      match flow with
      | Completed => (Looping c1, w1, t1)
      | Return => (Exited, w1, t1)
      | Thrown err =>
          if maxConsecutiveErrors <=? c1 + 1 then
            (if catch_shutting_down it then Exited else Looping 0, w1,
             t1 ++ [Logged (LogErrorInLoop (c1 + 1) err);
                    Logged LogTooManyErrors; Logged (LogFatal err)]
                ++ (if catch_shutting_down it then []
                    else [Logged LogRestarting]))
          else
            (Looping (c1 + 1), w1,
             t1 ++ [Logged (LogErrorInLoop (c1 + 1) err);
                    Logged (LogWaiting
                              (Z.min (1000 * 2 ^ (c1 + 1 - 1)) 30000))])
      end in
    (length (stream w) <= length (stream out.1.2))%nat
    /\ StronglySorted Z.lt (delivered_ids out.2)
    /\ Forall (fun i => Z.of_nat (length (stream w)) < i
                        <= Z.of_nat (length (stream out.1.2)))
         (delivered_ids out.2)).
  { intros flow c1 w1 t1 Hlen Hsorted Hrange.
    destruct flow as [| |err]; cbn [fst snd]; [auto|auto|].
    destruct (maxConsecutiveErrors <=? c1 + 1); cbn [fst snd];
      rewrite !delivered_ids_app;
      destruct (catch_shutting_down it); cbn [delivered_ids flat_map app];
      rewrite ?app_nil_r; auto. }
  destruct (xread_throws it).
  { apply (Hinner (Thrown RedisError) c w); [lia | constructor | constructor]. }
  rewrite xread_dollar_reply.
  destruct (entry <$> arrivals it) as [|e0 es] eqn:Harr.
  { apply (Hinner Completed 0); cbn [stream with_stream];
      [rewrite length_app; lia | constructor | constructor]. }
  rewrite <- Harr. clear Harr e0 es.
  set (messages := imap _ (entry <$> arrivals it)).
  set (w' := with_stream _ w).
  pose proof (process_messages_appends_only
                (zip messages (arrivals it)) c w') as [Hlen Hquiet].
  destruct (process_messages (zip messages (arrivals it)) c w')
    as [[[f c1] w1] t1]. cbn [fst snd] in Hlen, Hquiet.
  assert (Hw' : length (stream w')
                = (length (stream w) + length (entry <$> arrivals it))%nat).
  { subst w'. cbn [stream with_stream]. by rewrite length_app. }
  destruct (following_ids (length (stream w)) (entry <$> arrivals it))
    as [Hsorted Hrange]. fold messages in Hsorted, Hrange.
  apply Hinner; [lia | |];
    cbn [app delivered_ids flat_map]; fold (delivered_ids t1);
    rewrite Hquiet, app_nil_r; [exact Hsorted|].
  eapply Forall_impl; [exact Hrange|]. cbn beta. intros i Hi. lia.
Qed.

(** A step of the system. *)
Lemma step_reads (s : Step) (wk : Worker) (w : World) :
  let w1 := (step s wk w).1.2 in
  let ids := delivered_ids (step s wk w).2 in
  (length (stream w) <= length (stream w1))%nat
  /\ StronglySorted Z.lt ids
  /\ Forall (fun i => Z.of_nat (length (stream w)) < i
                      <= Z.of_nat (length (stream w1))) ids.
Proof.
  cbv zeta. destruct s as [req env|oid env|it]; cbn [step].
  - pose proof (post_order_appends_only req env w) as [Hlen Hq].
    destruct (post_order req env w) as [[r w1] t]. cbn [fst snd] in *.
    rewrite Hq. split; [exact Hlen | split; constructor].
  - pose proof (get_order_appends_only oid env w) as [Hlen Hq].
    destruct (get_order oid env w) as [[r w1] t]. cbn [fst snd] in *.
    rewrite Hq. split; [exact Hlen | split; constructor].
  - destruct wk as [c|].
    + apply iteration_reads.
    + cbn. split; [lia | split; constructor].
Qed.

(** A run of the system: the ids the reads return, one turn after the
    other, are in increasing order and above the last id of the stream
    the run started from. *)
Lemma run_reads (steps : list Step) (wk : Worker) (w : World) :
  let w1 := (run steps wk w).1.2 in
  let ids := delivered_ids (run steps wk w).2 in
  (length (stream w) <= length (stream w1))%nat
  /\ StronglySorted Z.lt ids
  /\ Forall (fun i => Z.of_nat (length (stream w)) < i
                      <= Z.of_nat (length (stream w1))) ids.
Proof.
  cbv zeta. revert wk w. induction steps as [|s steps IH]; intros wk w.
  - cbn. split; [lia | split; constructor].
  - cbn [run].
    pose proof (step_reads s wk w) as (Hlen1 & Hs1 & Hr1). cbv zeta in *.
    destruct (step s wk w) as [[wk1 w1] t1]. cbn [fst snd] in *.
    specialize (IH wk1 w1) as (Hlen2 & Hs2 & Hr2).
    destruct (run steps wk1 w1) as [[wk2 w2] t2]. cbn [fst snd] in *.
    rewrite delivered_ids_app.
    split; [lia|]. split.
    + apply StronglySorted_app_2; [|exact Hs1|exact Hs2].
      intros x1 x2 Hx1 Hx2.
      rewrite Forall_forall in Hr1, Hr2.
      specialize (Hr1 x1 Hx1). specialize (Hr2 x2 Hx2). lia.
    + apply Forall_app. split.
      * eapply Forall_impl; [exact Hr1|]. cbn beta. intros i Hi. lia.
      * eapply Forall_impl; [exact Hr2|]. cbn beta. intros i Hi. lia.
Qed.

End ReadFacts.

Section ReadTheorems.
Context `{NumberToString} `{Collation} `{LooseLookup}.

(** C2 (as amended). In every turn of the loop the blocking read asks
    for the entries past the end of the stream at the time of the call
    ([$]), and its reply holds exactly the entries added after the call
    arrived. So in any run of the system the ids returned by the reads
    are in strictly increasing order and above the last id the stream
    had at the start: no entry is returned by two reads, and an entry
    that was in the stream before a read is not returned by it or by any
    later one. An entry whose upsert throws leaves the world as it was
    (no row, no cache entry), and is thus never read again. *)
Theorem C2_reads_only_new_entries :
  (forall at_call arrivals : list (list (string * string)),
     xread_dollar at_call arrivals =
       match arrivals with
       | [] => None
       | _ => Some (imap (fun i e => (Z.of_nat (length at_call + i) + 1, e))
                      arrivals)
       end)
  /\ (forall (steps : list Step) (wk : Worker) (w : World),
        let ids := delivered_ids (run steps wk w).2 in
        StronglySorted Z.lt ids
        /\ Forall (fun i => Z.of_nat (length (stream w)) < i) ids)
  /\ (forall messageId fields c env w oid n,
        decode_order fields = Some (oid, n) ->
        db_query_throws env = true ->
        (process_message messageId fields c env w).1.2 = w).
Proof.
  split; [exact xread_dollar_reply|]. split.
  - intros steps wk w ids. subst ids.
    destruct (run_reads steps wk w) as (_ & Hsorted & Hrange).
    split; [exact Hsorted|].
    eapply Forall_impl; [exact Hrange|]. cbn beta. intros i Hi. lia.
  - intros messageId fields c env w oid n Hd Hdb.
    rewrite (process_message_well_formed _ _ _ _ _ _ _ Hd). cbv zeta.
    by rewrite Hdb.
Qed.

End ReadTheorems.

(** * Scenarios *)

Section Scenarios.
#[local] Existing Instance ascii_ci.
#[local] Existing Instance integral_toString.
#[local] Existing Instance no_loose_match.

Lemma no_fault_calm (db_time : Z) (js_time : string) :
  no_fault (calm db_time js_time).
Proof. repeat split. Qed.

(** C1, counterexample. [ord-1] is submitted with amount 100 and, before
    any message is processed, again with amount 50: the second request
    is accepted, not rejected as a duplicate, and the stream holds two
    entries. *)
Lemma C1_second_submit_accepted :
  let first := post_order (submit_ord1 100) (calm 1000 "T0") empty_world in
  let second := post_order (submit_ord1 50) (calm 1001 "T1") first.1.2 in
  is_accepted first.1.1
  /\ is_accepted second.1.1
  /\ ~ is_duplicate_error second.1.1
  /\ length (stream second.1.2) = 2%nat.
Proof.
  vm_compute.
  split; [eexists; reflexivity|]. split; [eexists; reflexivity|].
  split; [intros [b Hb]; discriminate Hb | reflexivity].
Qed.

Lemma C1_witness :
  exists e1 e2,
    stream (post_order (submit_ord1 50) (calm 1001 "T1")
              (post_order (submit_ord1 100) (calm 1000 "T0")
                 empty_world).1.2).1.2
      = [e1; e2]
    /\ is_duplicate_error
         (post_order (submit_ord1 50) (calm 1001 "T1")
            (process_message 1 (flat_fields (order_entry "ord-1" "100")) 0
               (calm 1002 "T2")
               (post_order (submit_ord1 100) (calm 1000 "T0")
                  empty_world).1.2).1.2).1.1.
Proof.
  destruct (C1_duplicate_only_after_processing "ord-1"
              (submit_ord1 100) (submit_ord1 50)
              (calm 1000 "T0") (calm 1001 "T1") empty_world
              eq_refl eq_refl
              ltac:(vm_compute; reflexivity) ltac:(vm_compute; reflexivity)
              (no_fault_calm _ _) (no_fault_calm _ _)
              ltac:(vm_compute; reflexivity) ltac:(vm_compute; reflexivity))
    as [(_ & _ & (e1 & e2 & Hstream) & _) Hafter].
  exists e1, e2. split; [exact Hstream|].
  apply (Hafter 1 (flat_fields (order_entry "ord-1" "100")) 0
           (calm 1002 "T2") (JsNumber.of_string "100"));
    vm_compute; reflexivity.
Defined.

(** C4, at the failing input. [ord-1] with amount 100 is submitted while
    the lookup in the cache throws; the table holds no such order and
    the stream would take the entry. The request is answered 500 after
    the one call to the cache: the table is not looked up and nothing is
    added to the stream. *)
Theorem C4_cache_failure_surfaces :
  post_order (submit_ord1 100) (cache_read_down 1000 "T0") empty_world =
    (Ok {| status_code := 500; body := ErrFailedToQueue "T0" |},
     empty_world,
     [Called (RedisGet "order:ord-1"); Logged LogErrorCreating])
  /\ (post_order (submit_ord1 100) (calm 1000 "T0") empty_world).1.1
     = Ok {| status_code := 201;
             body := Queued (JsStr "ord-1") (JsNumber.of_string "100") "T0" |}.
Proof. vm_compute. split; reflexivity. Qed.

(** The read path, for comparison: when the lookup in the cache throws,
    [get_order] goes on to the table and answers from it. *)
Example get_order_cache_failure_falls_through :
  let w := (process_message 1 (flat_fields (order_entry "ord-1" "100")) 0
              (calm 1000 "T0") empty_world).1.2 in
  let out := get_order "ord-1" (cache_read_down 1009 "T9") w in
  (exists doc, out.1.1 = Ok {| status_code := 200; body := OrderDocument doc |})
  /\ out.2 =
       [Logged (LogRetrieving "ord-1"); Called (RedisGet "order:ord-1");
        Logged (LogCacheReadError "ord-1"); Logged (LogCacheMiss "ord-1");
        Called (DbSelectOrder "ord-1");
        Called (RedisSetex "order:ord-1" 3600
                  (enrich {| id := 1; order_id := "ord-1";
                             amount := 1000000;
                             tax := 180000;
                             total := 1180000;
                             status := completed; created_at := 1000;
                             updated_at := 1000; processed_at := Some 1000 |}
                     "T9"));
        Logged (LogCached "ord-1"); Logged (LogServedFromDatabase "ord-1")].
Proof. vm_compute. split; [eexists|]; reflexivity. Qed.


(** Other values that [post_order] takes: an amount that is the text of
    a hexadecimal literal or a list of one number, and an order id that
    is a number, a boolean or a list of one string, here of 101
    characters. The validation error is answered to the order id 0,
    which is falsy, and to an object, whose text is [[object Object]];
    and an object with a property [toString] makes the test of the
    pattern throw, which is answered 500. *)
Example post_order_on_other_values :
  let answer v a :=
    status_code <$>
      match (post_order {| body_order_id := v; body_amount := a;
                           request_ip := None |}
               (calm 1000 "T0") empty_world).1.1 with
      | Ok r => Some r
      | Throw _ => None
      end in
  let long := string_of_list_ascii (repeat "a"%char 101) in
  answer (JsStr "ord-1") (JsStr "0x1F") = Some 201
  /\ answer (JsStr "ord-1") (JsArr [JsNum (JsNumber.of_Z 5)]) = Some 201
  /\ answer (JsNum (JsNumber.of_Z 123)) (JsNum (JsNumber.of_Z 5)) = Some 201
  /\ answer (JsBool true) (JsNum (JsNumber.of_Z 5)) = Some 201
  /\ answer (JsStr long) (JsNum (JsNumber.of_Z 5)) = Some 400
  /\ answer (JsArr [JsStr long]) (JsNum (JsNumber.of_Z 5)) = Some 201
  /\ answer (JsNum (JsNumber.of_Z 0)) (JsNum (JsNumber.of_Z 5)) = Some 400
  /\ answer (JsObj [("id", JsNum (JsNumber.of_Z 1))])
       (JsNum (JsNumber.of_Z 5)) = Some 400
  /\ answer (JsObj [("toString", JsNull)]) (JsNum (JsNumber.of_Z 5))
     = Some 500
  /\ answer (JsStr "ord-1") JsNull = Some 400
  /\ answer (JsStr "ord-1") JsUndefined = Some 400.
Proof. vm_compute. repeat split. Qed.

(** C9, witness: [bad id!]. *)
Lemma C9_witness :
  ~ matches_order_id_pattern "bad id!"
  /\ exists b, get_order "bad id!" (calm 1000 "T0") empty_world
               = (Ok {| status_code := 400; body := b |}, empty_world, []).
Proof.
  assert (Hbad : ~ matches_order_id_pattern "bad id!").
  { intros Hp. apply order_id_checks_pattern in Hp.
    vm_compute in Hp. discriminate Hp. }
  split; [exact Hbad|].
  apply (C9_get_order_validation "bad id!" (calm 1000 "T0") empty_world).
  right. exact Hbad.
Defined.

(** C2, counterexample. The first turn reads entry 1, for [ord-1], and
    its upsert throws; the second turn reads entry 2, for [ord-2]; the
    third read times out. No call throws in the second and third turns.
    Entry 1 is returned by the first read only: it is not read again and
    not retried, and the table never gets a row for [ord-1]. *)
Lemma C2_failed_entry_not_reread :
  let out :=
    run [Turn (turn [delivery (order_entry "ord-1" "100") (db_down 1000 "T0")]);
         Turn (turn [delivery (order_entry "ord-2" "7") (calm 1001 "T1")]);
         Turn (turn [])]
      (Looping 0) empty_world in
  delivered_ids out.2 = [1; 2]
  /\ stream out.1.2 = [order_entry "ord-1" "100"; order_entry "ord-2" "7"]
  /\ find_order "ord-1" (orders out.1.2) = None
  /\ cache out.1.2 !! cache_key "ord-1" = None
  /\ is_Some (find_order "ord-2" (orders out.1.2)).
Proof. vm_compute. repeat split; eauto. Qed.

(** An entry added to the stream while the worker is not blocked in a
    read is returned by no read: [ord-1] is queued between two turns. *)
Example entry_added_between_reads_is_lost :
  let out :=
    run [Turn (turn []);
         Post (submit_ord1 100) (calm 1000 "T0");
         Turn (turn [delivery (order_entry "ord-2" "7") (calm 1001 "T1")]);
         Turn (turn [])]
      (Looping 0) empty_world in
  length (stream out.1.2) = 2%nat
  /\ delivered_ids out.2 = [2]
  /\ find_order "ord-1" (orders out.1.2) = None.
Proof. vm_compute. repeat split. Qed.

Lemma C2_witness :
  (process_message 1 (flat_fields (order_entry "ord-1" "100")) 0
     (db_down 1000 "T0") empty_world).1.2 = empty_world.
Proof.
  apply (proj2 (proj2 (C2_reads_only_new_entries
                         (H := integral_toString) (H0 := ascii_ci)
                         (H1 := no_loose_match)))
           1 (flat_fields (order_entry "ord-1" "100")) 0 (db_down 1000 "T0")
           empty_world "ord-1" (JsNumber.of_string "100"));
    vm_compute; reflexivity.
Defined.

(** C3, at the failing input. One read returns two entries, for [ord-1]
    and [ord-2]; the upsert of [ord-1] succeeds and its cache write
    throws. The handler of the message throws in its turn (the
    ReferenceError), so the error is not swallowed: it reaches the
    [catch] of the loop, which counts it and waits 1000 ms. Entry 2 is
    not processed: no row and no cache entry for [ord-2]. *)
Theorem C3_cache_failure_aborts_batch :
  let a := JsNumber.of_string "100" in
  let tx := compute_tax a in
  let tot := compute_total a tx in
  let e1 := order_entry "ord-1" "100" in
  let out :=
    iteration
      (turn [delivery e1 (cache_write_down 1000 "T0");
             delivery (order_entry "ord-2" "7") (calm 1000 "T0")])
      0 empty_world in
  out.1.1 = Looping 1
  /\ is_Some (find_order "ord-1" (orders out.1.2))
  /\ find_order "ord-2" (orders out.1.2) = None
  /\ cache out.1.2 = ∅
  /\ out.2 =
       [Called (RedisXread 5000 "orders_stream" "$"); Delivered [1; 2];
        Logged (LogProcessingMessage 1);
        Logged (LogProcessingOrder "ord-1" a tx tot);
        Called (DbUpsert "ord-1" a tx tot);
        Called (RedisSetex "order:ord-1" 3600
                  (orderData (decode_fields (flat_fields e1)) "ord-1"
                     a tx tot "T0"));
        Logged (LogErrorInLoop 1 (ReferenceError "data"));
        Logged (LogWaiting 1000)].
Proof. vm_compute. repeat split; eauto. Qed.

(** The same read when the cache write does not throw: both entries are
    processed and the error count is reset. *)
Example batch_without_cache_failure :
  let out :=
    iteration
      (turn [delivery (order_entry "ord-1" "100") (calm 1000 "T0");
             delivery (order_entry "ord-2" "7") (calm 1000 "T0")])
      0 empty_world in
  out.1.1 = Looping 0
  /\ is_Some (find_order "ord-1" (orders out.1.2))
  /\ is_Some (find_order "ord-2" (orders out.1.2)).
Proof. vm_compute. repeat split; eauto. Qed.

(** C5, witness: the event for [ord-1] with amount 100.00 is processed
    at database time 1000 and again at 1005. *)
Lemma C5_witness :
  let fields := flat_fields (order_entry "ord-1" "100.00") in
  let once := (process_message 1 fields 0 (calm 1000 "T0") empty_world).1.2 in
  let twice := (process_message 1 fields 0 (calm 1005 "T5") once).1.2 in
  exists r1 r2,
    find_order "ord-1" (orders once) = Some r1
    /\ find_order "ord-1" (orders twice) = Some r2
    /\ order_id r2 = order_id r1 /\ amount r2 = amount r1
    /\ tax r2 = tax r1 /\ total r2 = total r1
    /\ status r2 = completed /\ status r1 = completed
    /\ id r2 = id r1 /\ created_at r2 = created_at r1
    /\ updated_at r2 = 1005.
Proof.
  intros fields once twice.
  destruct (C5_redelivery_same_row 1 1 fields 0 0
              (calm 1000 "T0") (calm 1005 "T5") empty_world
              "ord-1" (JsNumber.of_string "100.00")
              ltac:(vm_compute; reflexivity) eq_refl eq_refl)
    as (r1 & r2 & H1 & H2 & Ho & Ha & _ & Ht & _ & Htot & _ & Hs2 & Hs1
        & Hid & Hc & _ & _ & Hu & _).
  exists r1, r2. repeat split; assumption.
Defined.

(** The same redelivery, run: the two rows differ in [updated_at] and
    [processed_at], which carry the time of each upsert, and in nothing
    else. *)
Example redelivery_at_a_later_time :
  let fields := flat_fields (order_entry "ord-1" "100.00") in
  let once := (process_message 1 fields 0 (calm 1000 "T0") empty_world).1.2 in
  let twice := (process_message 1 fields 0 (calm 1005 "T5") once).1.2 in
  find_order "ord-1" (orders once)
  = Some {| id := 1; order_id := "ord-1"; amount := 1000000; tax := 180000;
            total := 1180000; status := completed; created_at := 1000;
            updated_at := 1000; processed_at := Some 1000 |}
  /\ find_order "ord-1" (orders twice)
     = Some {| id := 1; order_id := "ord-1"; amount := 1000000; tax := 180000;
               total := 1180000; status := completed; created_at := 1000;
               updated_at := 1005; processed_at := Some 1005 |}.
Proof. vm_compute. split; reflexivity. Qed.

(** C6, at the failing input. An event with the amount 0.0075 is
    processed. The tax due on it is 0.00135, and [round(0.00135, 4)] is
    0.0014, which makes the total 0.0089. The product the worker rounds,
    [0.0075 * 0.18 * 10000] in the arithmetic of Numbers, is the Number
    just below 13.5: [Math.round] gives 13, and the row holds the tax
    0.0013 and the total 0.0088. With the amount 100.00 of the scenario
    the row holds 100.0000, 18.0000 and 118.0000, and status
    completed. *)
Theorem C6_tie_rounds_down :
  let process amount_text :=
    find_order "ord-1"
      (orders (process_message 1 (flat_fields (order_entry "ord-1" amount_text))
                 0 (calm 1000 "T0") empty_world).1.2) in
  process "0.0075"
  = Some {| id := 1; order_id := "ord-1"; amount := 75; tax := 13;
            total := 88; status := completed; created_at := 1000;
            updated_at := 1000; processed_at := Some 1000 |}
  /\ spec_tax (Qmake 75 10000) = 14
  /\ spec_total (Qmake 75 10000) = 89
  /\ JsNumber.ltb
       (JsNumber.mul (JsNumber.mul (JsNumber.of_string "0.0075") TAX_RATE)
          TEN_THOUSAND)
       (JsNumber.of_string "13.5") = true
  /\ process "100.00"
     = Some {| id := 1; order_id := "ord-1"; amount := 1000000;
               tax := 180000; total := 1180000; status := completed;
               created_at := 1000; updated_at := 1000;
               processed_at := Some 1000 |}
  /\ spec_tax (Qmake 100 1) = 180000
  /\ spec_total (Qmake 100 1) = 1180000.
Proof. vm_compute. repeat split. Qed.

(** The rounding is that of Numbers: for the amount 0.0075 the product
    [0.0075 * 0.18 * 10000] is the Number just below 13.5, and the tax
    is 0.0013. *)
Example tax_of_0_0075 :
  compute_tax (JsNumber.of_string "0.0075") = JsNumber.of_string "0.0013"
  /\ JsNumber.ltb
       (JsNumber.mul (JsNumber.mul (JsNumber.of_string "0.0075") TAX_RATE)
          TEN_THOUSAND)
       (JsNumber.of_string "13.5") = true.
Proof. vm_compute. split; reflexivity. Qed.

(** What the columns keep: four places of the decimal text of the
    Number, a fifth digit 5 rounding away from zero also where the Number
    itself lies below the tie (5.00005), and the end of the range for a
    value beyond it; the column reads back as the closest Number. *)
Example decimal_column_values :
  sql_decimal (JsNumber.of_string "1.234567") = 12346
  /\ sql_decimal (JsNumber.of_string "5.00005") = 50001
  /\ sql_decimal (JsNumber.of_string "0.00004") = 0
  /\ sql_decimal (JsNumber.of_string "1e9") = DECIMAL_MAX
  /\ decimal_to_number 13 = JsNumber.of_string "0.0013".
Proof. vm_compute. repeat split. Qed.

(** The same read, run: the entries for [ord-1] and [ord-3] get their
    rows and their cache entries, and no call is made for the entry
    without amount. *)
Example batch_with_malformed_entry :
  let e2 := [("order_id", "ord-2")] in
  let out :=
    iteration
      (turn [delivery (order_entry "ord-1" "100") (calm 1000 "T0");
             delivery e2 (calm 1000 "T0");
             delivery (order_entry "ord-3" "7") (calm 1000 "T0")])
      0 empty_world in
  out.1.1 = Looping 0
  /\ is_Some (find_order "ord-1" (orders out.1.2))
  /\ find_order "ord-2" (orders out.1.2) = None
  /\ cache out.1.2 !! cache_key "ord-2" = None
  /\ is_Some (find_order "ord-3" (orders out.1.2))
  /\ is_Some (cache out.1.2 !! cache_key "ord-3")
  /\ In (Logged (LogInvalidMessageData (decode_fields (flat_fields e2))))
       out.2.
Proof. vm_compute. repeat split; eauto 20. Qed.

(** C10, witness: [ord-1] is processed at time 1000 with amount 100 and
    again at time 2000 with amount 250. *)
Lemma C10_witness :
  let w1 := (process_message 1 (flat_fields (order_entry "ord-1" "100")) 0
               (calm 1000 "T0") empty_world).1.2 in
  let w2 := (process_message 5 (flat_fields (order_entry "ord-1" "250")) 0
               (calm 2000 "T9") w1).1.2 in
  exists r1 r2,
    find_order "ord-1" (orders w1) = Some r1
    /\ find_order "ord-1" (orders w2) = Some r2
    /\ id r2 = id r1 /\ created_at r2 = created_at r1
    /\ amount r2 = sql_decimal (JsNumber.of_string "250")
    /\ updated_at r2 = 2000 /\ processed_at r2 = Some 2000.
Proof.
  intros w1 w2.
  assert (Hr1 : exists r1, find_order "ord-1" (orders w1) = Some r1)
    by (vm_compute; eauto).
  destruct Hr1 as [r1 Hr1].
  destruct (C10_reprocessing_keeps_id_and_created_at 5
              (flat_fields (order_entry "ord-1" "250")) 0 (calm 2000 "T9")
              w1 "ord-1" (JsNumber.of_string "250") r1
              ltac:(vm_compute; reflexivity) eq_refl Hr1) as [Hr2 _].
  exists r1. eexists. split; [exact Hr1|]. split; [exact Hr2|].
  repeat split.
Defined.

End Scenarios.

(** * Further properties *)

(** ** The read path *)

Lemma order_id_char_not_space (c : ascii) :
  order_id_char c = true -> JsNumber.is_white_space (JsNumber.code c) = false.
Proof.
  unfold order_id_char, JsNumber.is_white_space. cbv zeta.
  generalize (JsNumber.code c). intros n.
  rewrite !orb_true_iff, !andb_true_iff, !Z.leb_le, !Z.eqb_eq. intros Hn.
  repeat (apply orb_false_iff; split); apply Z.eqb_neq; lia.
Qed.

Lemma trim_start_no_space (l : list Z) :
  Forall (fun c => JsNumber.is_white_space c = false) l ->
  JsNumber.trim_start l = l.
Proof. intros Hl. destruct Hl as [|c l Hc _]; cbn; [|rewrite Hc]; reflexivity. Qed.

Lemma trim_no_space (l : list Z) :
  Forall (fun c => JsNumber.is_white_space c = false) l ->
  JsNumber.trim l = l.
Proof.
  intros Hl. unfold JsNumber.trim.
  rewrite (trim_start_no_space l Hl).
  rewrite trim_start_no_space by (by apply List.Forall_rev).
  apply rev_involutive.
Qed.

(** The checks of [get_order] are the pattern: an id of the pattern has no
    white space to trim. *)
Lemma get_checks_pattern (oid : string) :
  get_checks oid = true <-> matches_order_id_pattern oid.
Proof.
  unfold get_checks. rewrite andb_true_iff, !negb_true_iff.
  rewrite order_id_checks_pattern. split; [tauto|].
  intros Hp. split; [|exact Hp].
  destruct Hp as [Hlen Hall].
  unfold truthy, str_trim_length, JsNumber.codes.
  rewrite trim_no_space.
  - rewrite length_map, <- String_length_list.
    unfold str_length in Hlen.
    apply orb_false_iff. split; [|apply Z.eqb_neq; lia].
    apply negb_false_iff, negb_true_iff.
    destruct oid; [cbn in Hlen; lia | reflexivity].
  - apply List.Forall_map. eapply List.Forall_impl; [|exact Hall].
    cbn beta. apply order_id_char_not_space.
Qed.

Section ReadPath.
Context `{Collation}.

(** What [get_order] does with an order id that passes the checks. *)
Lemma get_order_checked (oid : string) (env : Env) (w : World) :
  get_checks oid = true ->
  get_order oid env w =
    let key := cache_key oid in
    let start := [Logged (LogRetrieving oid); Called (RedisGet key)] in
    if redis_get_throws env then
      get_from_table oid env w (start ++ [Logged (LogCacheReadError oid)])
    else
      match cache w !! key with
      | None => get_from_table oid env w start
      | Some (doc, ttl) =>
          let hit := start ++ [Logged (LogServedFromCache oid);
                               Called (RedisExpire key CACHE_TTL)] in
          if redis_expire_throws env then
            get_from_table oid env w (hit ++ [Logged (LogCacheReadError oid)])
          else
            (Ok {| status_code := 200;
                   body := OrderDocument
                     (obj_set "retrieved_at" (JStr (js_now env))
                        (obj_set "cache_hit" (JBool true) doc)) |},
             with_cache (fun c => <[key := (doc, CACHE_TTL)]> c) w,
             hit)
      end.
Proof.
  intros Hchecks. unfold get_checks in Hchecks.
  apply andb_prop in Hchecks as [He Hf]. apply negb_true_iff in He, Hf.
  unfold get_order, get_from_table, redis_get, redis_expire, redis_setex,
    db_select_order.
  eff_unfold. rewrite He, Hf. cbv zeta.
  destruct (redis_get_throws env).
  - cbn -[find_order cache_key enrich].
    destruct (db_query_throws env); [reflexivity|].
    destruct (find_order oid (orders w)) as [r|];
      cbn -[find_order cache_key enrich]; [|reflexivity].
    destruct (redis_setex_throws env); reflexivity.
  - destruct (cache w !! cache_key oid) as [[doc ttl]|] eqn:Hc;
      cbn -[find_order cache_key enrich obj_set].
    + destruct (redis_expire_throws env);
        cbn -[find_order cache_key enrich obj_set].
      * destruct (db_query_throws env); [reflexivity|].
        destruct (find_order oid (orders w)) as [r|];
          cbn -[find_order cache_key enrich]; [|reflexivity].
        destruct (redis_setex_throws env); reflexivity.
      * unfold with_cache. by rewrite Hc.
    + destruct (db_query_throws env); [reflexivity|].
      destruct (find_order oid (orders w)) as [r|];
        cbn -[find_order cache_key enrich]; [|reflexivity].
      destruct (redis_setex_throws env); reflexivity.
Qed.

End ReadPath.

Lemma doc_field_obj_set (k k' : string) (v : Json) (o : list (string * Json)) :
  doc_field k' (obj_set k v o)
  = if String.eqb k k' then Some v else doc_field k' o.
Proof.
  induction o as [|[k0 v0] o IH]; cbn.
  - by destruct (String.eqb k k').
  - destruct (String.eqb_spec k0 k) as [->|Hne]; cbn.
    + by destruct (String.eqb k k').
    + rewrite IH. destruct (String.eqb_spec k0 k') as [->|Hne'].
      * destruct (String.eqb_spec k k'); congruence.
      * reflexivity.
Qed.

Section ReadPathTheorems.
Context `{Collation}.

(** An order id that fails a check is answered 400 with no call made. *)
Lemma get_order_rejected (oid : string) (env : Env) (w : World) :
  get_checks oid = false ->
  exists b, get_order oid env w
            = (Ok {| status_code := 400; body := b |}, w, []).
Proof.
  unfold get_checks, get_order. eff_unfold.
  destruct (negb (truthy (Some oid)) || (str_trim_length oid =? 0)); [eauto|].
  destruct (negb (order_id_regex_test oid) || (100 <? str_length oid));
    [eauto | discriminate].
Qed.

Lemma get_from_table_frame (oid : string) (env : Env) (w : World)
    (t : list Event) :
  let w' := (get_from_table oid env w t).1.2 in
  stream w' = stream w /\ orders w' = orders w
  /\ forall k, k <> cache_key oid -> cache w' !! k = cache w !! k.
Proof.
  unfold get_from_table. cbv zeta.
  destruct (db_query_throws env); [cbn; auto|].
  destruct (find_order oid (orders w)); [|cbn; auto].
  destruct (redis_setex_throws env); cbn -[cache_key]; [auto|].
  repeat split. intros k Hk. by rewrite lookup_insert_ne.
Qed.

(** X1. Whatever the order id, the cache, the table and the calls that
    fail, [get_order] leaves the stream and the table as they are, and in
    the cache it touches no key but [order:<order_id>]. *)
Theorem get_order_touches_only_its_cache_key (oid : string) (env : Env)
    (w : World) :
  let w' := (get_order oid env w).1.2 in
  stream w' = stream w /\ orders w' = orders w
  /\ forall k, k <> cache_key oid -> cache w' !! k = cache w !! k.
Proof.
  cbv zeta. destruct (get_checks oid) eqn:Hchecks.
  - rewrite (get_order_checked oid env w Hchecks). cbv zeta.
    destruct (redis_get_throws env); [apply get_from_table_frame|].
    destruct (cache w !! cache_key oid) as [[doc ttl]|];
      [|apply get_from_table_frame].
    destruct (redis_expire_throws env); [apply get_from_table_frame|].
    cbn -[cache_key]. repeat split. intros k Hk. by rewrite lookup_insert_ne.
  - destruct (get_order_rejected oid env w Hchecks) as [b ->]. cbn. auto.
Qed.

(** X2. A cache hit: for an order id of the pattern whose document is in
    the cache, when neither the lookup nor the refresh throws, [get_order]
    answers 200 with that document, [cache_hit] set to true and
    [retrieved_at] to the time of the request, its other properties as
    cached; the time to live of the entry is set back to 3600; and the
    table is not queried, so the answer does not depend on the database
    being up. *)
Theorem get_order_cache_hit (oid : string) (env : Env) (w : World)
    (doc : list (string * Json)) (ttl : Z) :
  matches_order_id_pattern oid ->
  cache w !! cache_key oid = Some (doc, ttl) ->
  redis_get_throws env = false ->
  redis_expire_throws env = false ->
  exists served,
    get_order oid env w =
      (Ok {| status_code := 200; body := OrderDocument served |},
       with_cache (fun c => <[cache_key oid := (doc, CACHE_TTL)]> c) w,
       [Logged (LogRetrieving oid); Called (RedisGet (cache_key oid));
        Logged (LogServedFromCache oid);
        Called (RedisExpire (cache_key oid) CACHE_TTL)])
    /\ doc_field "cache_hit" served = Some (JBool true)
    /\ doc_field "retrieved_at" served = Some (JStr (js_now env))
    /\ forall k, k <> "cache_hit" -> k <> "retrieved_at" ->
         doc_field k served = doc_field k doc.
Proof.
  intros Hp Hc Hget Hexp. apply get_checks_pattern in Hp.
  rewrite (get_order_checked oid env w Hp). cbv zeta.
  rewrite Hget, Hc, Hexp.
  eexists. split; [reflexivity|].
  rewrite !doc_field_obj_set. cbn. repeat split.
  intros k Hk1 Hk2. rewrite !doc_field_obj_set.
  destruct (String.eqb_spec "retrieved_at" k); [congruence|].
  destruct (String.eqb_spec "cache_hit" k); [congruence|]. reflexivity.
Qed.

(** X3. An error of the cache is a miss for the caller: when the lookup
    throws, or the document is found and the refresh of its time to live
    throws, [get_order] gives the answer it gives when the cache holds
    nothing for the order (same table, same clock, same fate of the
    query). *)
Theorem get_order_cache_error_is_miss (oid : string) (env env0 : Env)
    (w w0 : World) :
  matches_order_id_pattern oid ->
  redis_get_throws env = true
  \/ (is_Some (cache w !! cache_key oid) /\ redis_expire_throws env = true) ->
  redis_get_throws env0 = false ->
  cache w0 !! cache_key oid = None ->
  orders w0 = orders w ->
  db_query_throws env0 = db_query_throws env ->
  js_now env0 = js_now env ->
  (get_order oid env w).1.1 = (get_order oid env0 w0).1.1.
Proof.
  intros Hp Herr Hget0 Hc0 Ho Hdb Hnow. apply get_checks_pattern in Hp.
  rewrite !(get_order_checked oid _ _ Hp). cbv zeta.
  rewrite Hget0, Hc0.
  assert (Htable : forall t t' e1 e2,
            (get_from_table oid env w t).1.1
            = (get_from_table oid
                 {| redis_get_throws := false; redis_expire_throws := e1;
                    redis_setex_throws := e2;
                    redis_xadd_throws := redis_xadd_throws env0;
                    db_query_throws := db_query_throws env0;
                    db_now := db_now env0; js_now := js_now env0 |}
                 w0 t').1.1).
  { intros t t' e1 e2. unfold get_from_table. cbv zeta.
    cbn [db_query_throws js_now redis_setex_throws]. rewrite Hdb, Hnow, Ho.
    destruct (db_query_throws env); [reflexivity|].
    destruct (find_order oid (orders w)); [|reflexivity].
    by destruct (redis_setex_throws env), e2. }
  destruct env0 as [g0 e0 s0 x0 d0 n0 j0]. cbn in Hget0. subst g0.
  destruct Herr as [Hget | [[[doc ttl] Hc] Hexp]].
  - rewrite Hget. apply Htable.
  - destruct (redis_get_throws env); [apply Htable|].
    rewrite Hc, Hexp. apply Htable.
Qed.

(** X4. Served from the table: for an order id of the pattern that the
    cache does not hold, with the lookup and the query not throwing and a
    row [r] in the table, [get_order] answers 200 with the columns of [r],
    [cache_hit] false; it writes that document to the cache with a time to
    live of 3600, and when this write throws the answer is the same and
    the cache is as it was. *)
Theorem get_order_served_from_table (oid : string) (env : Env) (w : World)
    (r : OrderRow) :
  matches_order_id_pattern oid ->
  redis_get_throws env = false ->
  cache w !! cache_key oid = None ->
  db_query_throws env = false ->
  find_order oid (orders w) = Some r ->
  let out := get_order oid env w in
  out.1.1 = Ok {| status_code := 200;
                  body := OrderDocument (enrich r (js_now env)) |}
  /\ doc_field "cache_hit" (enrich r (js_now env)) = Some (JBool false)
  /\ doc_field "amount" (enrich r (js_now env))
     = Some (JNum (decimal_to_number (amount r)))
  /\ doc_field "tax" (enrich r (js_now env))
     = Some (JNum (decimal_to_number (tax r)))
  /\ doc_field "total" (enrich r (js_now env))
     = Some (JNum (decimal_to_number (total r)))
  /\ cache out.1.2 =
       (if redis_setex_throws env then cache w
        else <[cache_key oid := (enrich r (js_now env), CACHE_TTL)]> (cache w)).
Proof.
  intros Hp Hget Hc Hdb Hr. apply get_checks_pattern in Hp. cbv zeta.
  rewrite (get_order_checked oid env w Hp). cbv zeta.
  rewrite Hget, Hc. unfold get_from_table. cbv zeta. rewrite Hdb, Hr.
  destruct (redis_setex_throws env); cbn -[cache_key]; auto 10.
Qed.

(** X5. When the cache does not serve the order (a miss, or an error of
    the cache: the lookup throws, or the document is found and the
    refresh of its time to live throws), the table decides: without a row
    the answer is 404, and when the query throws it is 500; in both cases
    the world is left as it was. *)
Theorem get_order_not_served (oid : string) (env : Env) (w : World) :
  matches_order_id_pattern oid ->
  redis_get_throws env = true
  \/ cache w !! cache_key oid = None
  \/ (is_Some (cache w !! cache_key oid)
      /\ redis_expire_throws env = true) ->
  db_query_throws env = true
  \/ find_order oid (orders w) = None ->
  let out := get_order oid env w in
  out.1.2 = w
  /\ out.1.1 =
       if db_query_throws env
       then Ok {| status_code := 500;
                  body := ErrFailedToRetrieve oid (js_now env) |}
       else Ok {| status_code := 404; body := ErrNotFound oid |}.
Proof.
  intros Hp Hmiss Hrow. apply get_checks_pattern in Hp. cbv zeta.
  rewrite (get_order_checked oid env w Hp). cbv zeta.
  assert (Htable : forall t,
            (get_from_table oid env w t).1.2 = w
            /\ (get_from_table oid env w t).1.1 =
                 if db_query_throws env
                 then Ok {| status_code := 500;
                            body := ErrFailedToRetrieve oid (js_now env) |}
                 else Ok {| status_code := 404; body := ErrNotFound oid |}).
  { intros t. unfold get_from_table. cbv zeta.
    destruct (db_query_throws env); [cbn; auto|].
    destruct Hrow as [[=] | ->]. cbn. auto. }
  destruct Hmiss as [-> | [Hc | [[[doc ttl] Hc] Hexp]]]; [apply Htable| |].
  - destruct (redis_get_throws env); [apply Htable|].
    rewrite Hc. apply Htable.
  - destruct (redis_get_throws env); [apply Htable|].
    rewrite Hc, Hexp. apply Htable.
Qed.

(** X6. Read, then read again: for an order id of the pattern that only
    the table holds, with no call throwing, the first [get_order] answers
    from the table and fills the cache; the second one is a cache hit: it
    makes no query, and answers with the same document but for
    [cache_hit], now true, and [retrieved_at]. *)
Theorem get_order_twice (oid : string) (env1 env2 : Env) (w : World)
    (r : OrderRow) :
  matches_order_id_pattern oid ->
  no_fault env1 ->
  no_fault env2 ->
  cache w !! cache_key oid = None ->
  find_order oid (orders w) = Some r ->
  let first := get_order oid env1 w in
  let second := get_order oid env2 first.1.2 in
  first.1.1 = Ok {| status_code := 200;
                    body := OrderDocument (enrich r (js_now env1)) |}
  /\ second.1.1 =
       Ok {| status_code := 200;
             body := OrderDocument
               (obj_set "retrieved_at" (JStr (js_now env2))
                  (obj_set "cache_hit" (JBool true)
                     (enrich r (js_now env1)))) |}
  /\ second.2 =
       [Logged (LogRetrieving oid); Called (RedisGet (cache_key oid));
        Logged (LogServedFromCache oid);
        Called (RedisExpire (cache_key oid) CACHE_TTL)].
Proof.
  intros Hp (Hg1 & _ & Hs1 & _ & Hd1) (Hg2 & He2 & _ & _ & _) Hc Hr.
  apply get_checks_pattern in Hp. cbv zeta.
  rewrite (get_order_checked oid env1 w Hp). cbv zeta.
  rewrite Hg1, Hc. unfold get_from_table. cbv zeta. rewrite Hd1, Hr, Hs1.
  cbn [fst snd]. split; [reflexivity|].
  rewrite (get_order_checked oid env2 _ Hp). cbv zeta.
  rewrite Hg2. cbn [cache with_cache]. rewrite lookup_insert_eq, He2.
  cbn [fst snd]. split; reflexivity.
Qed.

End ReadPathTheorems.

(** ** Admission *)

Lemma flat_fields_pairs_of_even (l : list string) :
  Nat.even (length l) = true -> flat_fields (pairs_of l) = l.
Proof.
  revert l. fix IH 1. intros [|k [|v l]] Hl; [reflexivity | discriminate |].
  cbn. f_equal. f_equal. apply IH. exact Hl.
Qed.

Section AdmissionFacts.
Context `{NumberToString} `{Collation} `{LooseLookup}.

(** X7. One append for an accepted request, none otherwise: whatever the
    request and the calls that fail, [post_order] leaves the cache and the
    table as they are; when it answers 201 the stream has exactly one more
    entry, at its end, and with any other answer the stream is as it
    was. *)
Theorem post_order_appends_iff_accepted (req : PostRequest) (env : Env)
    (w : World) :
  let out := post_order req env w in
  cache out.1.2 = cache w /\ orders out.1.2 = orders w
  /\ (is_accepted out.1.1 -> exists e, stream out.1.2 = stream w ++ [e])
  /\ (~ is_accepted out.1.1 -> stream out.1.2 = stream w).
Proof.
  cbv zeta.
  assert (Hno : forall (b : Body) (code : Z),
            code <> 201 ->
            ~ is_accepted (Ok {| status_code := code; body := b |})).
  { intros b code Hcode [b' [=]]. congruence. }
  destruct (post_checks_cases req) as [[Hc Ht] | [[Hc Ht] | [Hc Ht]]].
  - rewrite (post_order_passed req env w Hc). cbv zeta.
    destruct (redis_get_throws env);
      [cbn [fst snd]; repeat split; auto; intros Ha; by apply Hno in Ha|].
    destruct (cache w !! cache_key _) as [[doc ttl]|];
      [cbn [fst snd]; repeat split; auto; intros Ha; by apply Hno in Ha|].
    destruct (db_query_throws env);
      [cbn [fst snd]; repeat split; auto; intros Ha; by apply Hno in Ha|].
    destruct (select_rows _ (orders w));
      [|cbn [fst snd]; repeat split; auto; intros Ha; by apply Hno in Ha].
    destruct (redis_xadd_throws env);
      [cbn [fst snd]; repeat split; auto; intros Ha; by apply Hno in Ha|].
    cbn [fst snd cache orders stream]. repeat split; [eauto|].
    intros Hn. exfalso. apply Hn. eexists. reflexivity.
  - rewrite (post_order_throws req env w Ht). cbn [fst snd].
    repeat split; auto. intros Ha. by apply Hno in Ha.
  - destruct (post_order_rejected req env w Hc Ht) as [b ->]. cbn [fst snd].
    repeat split; auto. intros Ha. by apply Hno in Ha.
Qed.


(** X9. No degraded admission: for a request that passes the checks and
    that the cache does not hold, when the query of the table throws, or
    the table has no row and the append to the stream throws,
    [post_order] answers 500 and leaves the world as it was; the request
    is not queued and not retried. *)
Theorem post_order_unavailable (req : PostRequest) (oid : string) (env : Env)
    (w : World) :
  body_order_id req = JsStr oid ->
  post_checks req = true ->
  redis_get_throws env = false ->
  cache w !! cache_key oid = None ->
  db_query_throws env = true
  \/ (find_order oid (orders w) = None /\ redis_xadd_throws env = true) ->
  let out := post_order req env w in
  out.1.1 = Ok {| status_code := 500; body := ErrFailedToQueue (js_now env) |}
  /\ out.1.2 = w.
Proof.
  intros Hoid Hchecks Hget Hc Hfail. cbv zeta.
  rewrite (post_order_checked req oid env w Hoid Hchecks). cbv zeta.
  rewrite Hget, Hc.
  destruct Hfail as [-> | [Hr Hx]]; [cbn; auto|].
  destruct (db_query_throws env); [cbn; auto|].
  rewrite Hr, Hx. cbn. auto.
Qed.

(** The fields [post_order] sends for a request that passes the checks
    are read back by the worker as the same order, when the text of the
    amount reads back as the amount. *)
Lemma stream_args_decode (req : PostRequest) (oid : string) (now : string) :
  body_order_id req = JsStr oid ->
  post_checks req = true ->
  JsNumber.of_string (number_toString (ToNumber (body_amount req)))
  = ToNumber (body_amount req) ->
  decode_order (stream_args oid (ToNumber (body_amount req)) now
                  (request_ip req))
  = Some (oid, ToNumber (body_amount req)).
Proof.
  intros Hoid Hchecks Hback.
  destruct (post_checks_parts req Hchecks) as [Hformat Hamount].
  rewrite Hoid in Hformat. unfold order_id_check, amount_check in *.
  cbn [ToString] in Hformat.
  apply negb_true_iff in Hformat, Hamount.
  apply orb_false_iff in Hformat as [Hre _]. apply negb_false_iff in Hre.
  apply orb_false_iff in Hamount as [Hamount _].
  apply orb_false_iff in Hamount as [Hfin Hpos].
  apply negb_false_iff in Hfin.
  set (n := ToNumber (body_amount req)) in *.
  assert (Hdata : decode_fields (stream_args oid n now (request_ip req))
                    !! "order_id" = Some oid
                  /\ decode_fields (stream_args oid n now (request_ip req))
                       !! "amount" = Some (number_toString n)).
  { unfold decode_fields, stream_args.
    destruct (request_ip req); cbn [app pairs_of fold_left fst snd];
      split; by simplify_map_eq. }
  unfold decode_order. destruct Hdata as [-> ->].
  assert (Htxt : truthy (Some (number_toString n)) = true).
  { unfold truthy. apply negb_true_iff.
    destruct (String.eqb_spec (number_toString n) "") as [Hempty|];
      [|reflexivity].
    rewrite Hempty in Hback. rewrite <- Hback in Hpos.
    vm_compute in Hpos. discriminate Hpos. }
  rewrite Htxt, Hback, Hfin, Hpos.
  unfold truthy. by rewrite (regex_test_nonempty oid Hre).
Qed.

(** X10. From admission to processing: when [post_order] accepts a
    request, the entry it has put at the end of the stream passes the
    checks of the worker and is read back as the same order id and the
    same amount, provided the text the engine prints for that amount
    reads back as the amount. *)
Theorem accepted_entry_is_well_formed (req : PostRequest) (oid : string)
    (env : Env) (w : World) :
  body_order_id req = JsStr oid ->
  post_checks req = true ->
  JsNumber.of_string (number_toString (ToNumber (body_amount req)))
  = ToNumber (body_amount req) ->
  is_accepted (post_order req env w).1.1 ->
  exists e,
    stream (post_order req env w).1.2 = stream w ++ [e]
    /\ decode_order (flat_fields e) = Some (oid, ToNumber (body_amount req)).
Proof.
  intros Hoid Hchecks Hback.
  rewrite (post_order_checked req oid env w Hoid Hchecks). cbv zeta.
  destruct (redis_get_throws env); [intros [b [=]]|].
  destruct (cache w !! cache_key oid) as [[doc ttl]|]; [intros [b [=]]|].
  destruct (db_query_throws env); [intros [b [=]]|].
  destruct (find_order oid (orders w)); [intros [b [=]]|].
  destruct (redis_xadd_throws env); [intros [b [=]]|].
  intros _. cbn [fst snd stream]. eexists. split; [reflexivity|].
  rewrite flat_fields_pairs_of_even.
  - by apply stream_args_decode.
  - unfold stream_args. by destruct (request_ip req).
Qed.

End AdmissionFacts.

(** ** What the handlers and the worker keep *)

Section Keeps.
Context {A B : Type} (R : World -> World -> Prop) (Q : list Event -> Prop).
Hypothesis R_refl : forall w, R w w.
Hypothesis R_trans : forall w1 w2 w3, R w1 w2 -> R w2 w3 -> R w1 w3.
Hypothesis Q_nil : Q [].
Hypothesis Q_app : forall t1 t2, Q t1 -> Q t2 -> Q (t1 ++ t2).

Lemma keeps_ret (a : A) : keeps R Q (mret a).
Proof. intros env w. cbn. auto. Qed.

Lemma keeps_throw (e : Exn) : keeps R Q (@throw A e).
Proof. intros env w. cbn. auto. Qed.

Lemma keeps_bind (m : Eff A) (f : A -> Eff B) :
  keeps R Q m -> (forall a, keeps R Q (f a)) -> keeps R Q (m ≫= f).
Proof.
  intros Hm Hf env w. unfold mbind, eff_mbind, eff_bind.
  specialize (Hm env w).
  destruct (m env w) as [[[a|e] w1] t1]; cbn [fst snd] in *; [|exact Hm].
  specialize (Hf a env w1).
  destruct (f a env w1) as [[r w2] t2]; cbn [fst snd] in *.
  destruct Hm, Hf. eauto.
Qed.

Lemma keeps_try_catch (m : Eff A) (h : Exn -> Eff A) :
  keeps R Q m -> (forall e, keeps R Q (h e)) -> keeps R Q (try_catch m h).
Proof.
  intros Hm Hh env w. unfold try_catch.
  specialize (Hm env w).
  destruct (m env w) as [[[a|e] w1] t1]; cbn [fst snd] in *; [exact Hm|].
  specialize (Hh e env w1).
  destruct (h e env w1) as [[r w2] t2]; cbn [fst snd] in *.
  destruct Hm, Hh. eauto.
Qed.

Lemma keeps_call (c : Call) (throws : Env -> bool) (e : Exn)
    (f : Env -> World -> A * World) :
  Q [Called c] -> (forall env w, R w (f env w).2) ->
  keeps R Q (call c throws e f).
Proof.
  intros Hc Hf env w. unfold call.
  destruct (throws env); cbn [fst snd]; [auto|].
  specialize (Hf env w). destruct (f env w) as [a w']. cbn [fst snd] in *.
  auto.
Qed.

Lemma keeps_console (l : LogLine) : Q [Logged l] -> keeps R Q (console l).
Proof. intros Hl env w. cbn. auto. Qed.

Lemma keeps_ask : keeps R Q ask.
Proof. intros env w. cbn. auto. Qed.

Lemma keeps_respond (code : Z) (b : Body) : keeps R Q (respond code b).
Proof. intros env w. cbn. auto. Qed.

End Keeps.

Ltac keeps_step :=
  first
    [ apply keeps_bind; [assumption..| |intros ?]
    | apply keeps_try_catch; [assumption..| |intros ?]
    | apply keeps_ret; assumption
    | apply keeps_throw; assumption
    | apply keeps_ask; assumption
    | apply keeps_respond; assumption
    | apply keeps_console; [assumption.. | reflexivity]
    | apply keeps_call;
      [assumption.. | reflexivity
       | intros ? ?; cbn [snd orders cache stream with_cache]; auto]
    | match goal with
      | |- keeps _ _ (if ?b then _ else _) => destruct b
      | |- keeps _ _ (match ?x with _ => _ end) => destruct x
      end ].

Lemma waits_app (t1 t2 : list Event) : waits (t1 ++ t2) = waits t1 ++ waits t2.
Proof. apply flat_map_app. Qed.

Lemma no_waits_app (t1 t2 : list Event) :
  waits t1 = [] -> waits t2 = [] -> waits (t1 ++ t2) = [].
Proof. intros H1 H2. by rewrite waits_app, H1, H2. Qed.

Section HandlersKeep.
Context `{NumberToString} `{Collation} `{LooseLookup}.

(** [post_order] writes neither the table nor the cache, and announces no
    wait. *)
Lemma post_order_keeps (req : PostRequest) :
  keeps (fun w w' => orders w' = orders w /\ cache w' = cache w)
    (fun t => waits t = []) (post_order req).
Proof.
  assert (R_refl : forall w : World, orders w = orders w /\ cache w = cache w)
    by auto.
  assert (R_trans : forall w1 w2 w3 : World,
            orders w2 = orders w1 /\ cache w2 = cache w1 ->
            orders w3 = orders w2 /\ cache w3 = cache w2 ->
            orders w3 = orders w1 /\ cache w3 = cache w1)
    by (intros w1 w2 w3 [-> ->] [-> ->]; auto).
  assert (Q_nil : waits [] = []) by reflexivity.
  pose proof no_waits_app as Q_app.
  unfold post_order, to_string, to_number, redis_get, db_select_status,
    redis_xadd.
  repeat keeps_step.
Qed.

(** [get_order] does not write the table, and announces no wait. *)
Lemma get_order_keeps (oid : string) :
  keeps (fun w w' => orders w' = orders w) (fun t => waits t = [])
    (get_order oid).
Proof.
  assert (R_refl : forall w : World, orders w = orders w) by auto.
  assert (R_trans : forall w1 w2 w3 : World,
            orders w2 = orders w1 -> orders w3 = orders w2 ->
            orders w3 = orders w1) by (intros w1 w2 w3 -> ->; auto).
  assert (Q_nil : waits [] = []) by reflexivity.
  pose proof no_waits_app as Q_app.
  unfold get_order, redis_get, redis_expire, redis_setex, db_select_order.
  repeat keeps_step.
Qed.

End HandlersKeep.

Lemma nothing_lost_refl (w : World) : nothing_lost w w.
Proof. split; auto. Qed.

Lemma nothing_lost_trans (w1 w2 w3 : World) :
  nothing_lost w1 w2 -> nothing_lost w2 w3 -> nothing_lost w1 w3.
Proof. intros [H1 H2] [H3 H4]. split; auto. Qed.

Section WorkerKeeps.
Context `{NumberToString} `{Collation} `{LooseLookup}.

(** Processing a message leaves the stream as it is, removes no row and no
    cache entry, and announces no wait. *)
Lemma process_message_keeps (messageId : Z) (fields : list string) (c : Z) :
  keeps (fun w w' => stream w' = stream w /\ nothing_lost w w')
    (fun t => waits t = []) (process_message messageId fields c).
Proof.
  assert (R_refl : forall w : World, stream w = stream w /\ nothing_lost w w)
    by (split; [reflexivity | apply nothing_lost_refl]).
  assert (R_trans : forall w1 w2 w3 : World,
            stream w2 = stream w1 /\ nothing_lost w1 w2 ->
            stream w3 = stream w2 /\ nothing_lost w2 w3 ->
            stream w3 = stream w1 /\ nothing_lost w1 w3).
  { intros w1 w2 w3 [-> Hl1] [-> Hl2].
    split; [reflexivity | by eapply nothing_lost_trans]. }
  assert (Q_nil : waits [] = []) by reflexivity.
  pose proof no_waits_app as Q_app.
  unfold process_message, db_upsert, redis_setex.
  repeat keeps_step.
  - split; [reflexivity|]. split; [|auto].
    intros k Hk. cbn [orders]. unfold upsert_order. cbn [rows].
    apply lookup_insert_is_Some'. auto.
  - split; [reflexivity|]. split; [auto|].
    intros k Hk. apply lookup_insert_is_Some'. auto.
Qed.

Lemma process_messages_keeps
    (messages : list ((Z * list (string * string)) * Delivery))
    (c : Z) (w : World) :
  let out := process_messages messages c w in
  stream out.1.2 = stream w /\ nothing_lost w out.1.2
  /\ waits out.2 = []
  /\ (out.1.1.2 = c \/ out.1.1.2 = 0).
Proof.
  cbv zeta. revert c w.
  induction messages as [|[[mid e] d] rest IH]; intros c w.
  - cbn. split; [reflexivity|]. split; [apply nothing_lost_refl|]. auto.
  - cbn [process_messages].
    destruct (shutting_down d).
    { cbn. split; [reflexivity|]. split; [apply nothing_lost_refl|]. auto. }
    unfold mbind, eff_mbind, eff_bind, console.
    pose proof (process_message_keeps mid (flat_fields e) c (entry_env d) w)
      as [[Hs Hl] Hq].
    assert (Hc : forall c1 w1 t1,
              process_message mid (flat_fields e) c (entry_env d) w
              = (Ok c1, w1, t1) -> c1 = c \/ c1 = 0).
    { intros c1 w1 t1.
      destruct (decode_order (flat_fields e)) as [[oid n]|] eqn:Hd.
      - rewrite (process_message_well_formed _ _ _ _ _ _ _ Hd). cbv zeta.
        destruct (db_query_throws (entry_env d)); [discriminate|].
        destruct (redis_setex_throws (entry_env d)); [discriminate|].
        intros [= <- _ _]. by right.
      - destruct (process_message_malformed mid (flat_fields e) c
                    (entry_env d) w Hd) as (l & -> & _).
        intros [= <- _ _]. by left. }
    destruct (process_message mid (flat_fields e) c (entry_env d) w)
      as [[[c1|err] w1] t1]; cbn [fst snd] in *.
    + specialize (IH c1 w1) as (Hs2 & Hl2 & Hq2 & Hc2).
      destruct (process_messages rest c1 w1) as [[[f c2] w2] t2].
      cbn [fst snd] in *.
      split; [congruence|]. split; [by eapply nothing_lost_trans|].
      split; [cbn; by rewrite waits_app, Hq, Hq2|].
      destruct (Hc c1 w1 t1 eq_refl) as [-> | ->]; [exact Hc2|].
      destruct Hc2 as [-> | ->]; auto.
    + split; [exact Hs|]. split; [exact Hl|]. split; [exact Hq | by left].
Qed.

End WorkerKeeps.

(** ** Relations kept along a run *)

Section RunKeeps.
Context `{NumberToString} `{Collation} `{LooseLookup}.
Variable R : World -> World -> Prop.
Hypothesis R_refl : forall w, R w w.
Hypothesis R_trans : forall w1 w2 w3, R w1 w2 -> R w2 w3 -> R w1 w3.
Hypothesis R_stream : forall s w, R w (with_stream s w).
Hypothesis R_post : forall req env w, R w (post_order req env w).1.2.
Hypothesis R_get : forall oid env w, R w (get_order oid env w).1.2.
Hypothesis R_message :
  forall messageId fields c env w,
    R w (process_message messageId fields c env w).1.2.

Lemma process_messages_rel
    (messages : list ((Z * list (string * string)) * Delivery))
    (c : Z) (w : World) :
  R w (process_messages messages c w).1.2.
Proof.
  revert c w. induction messages as [|[[mid e] d] rest IH]; intros c w.
  - apply R_refl.
  - cbn [process_messages].
    destruct (shutting_down d); [apply R_refl|].
    unfold mbind, eff_mbind, eff_bind, console.
    pose proof (R_message mid (flat_fields e) c (entry_env d) w) as Hm.
    destruct (process_message mid (flat_fields e) c (entry_env d) w)
      as [[[c1|err] w1] t1]; cbn [fst snd] in *; [|exact Hm].
    specialize (IH c1 w1).
    destruct (process_messages rest c1 w1) as [[[f c2] w2] t2].
    cbn [fst snd] in *. by eapply R_trans.
Qed.

Lemma iteration_rel (it : Iteration) (c : Z) (w : World) :
  R w (iteration it c w).1.2.
Proof.
  unfold iteration.
  destruct (loop_shutting_down it); [apply R_refl|].
  assert (Hinner : forall (flow : Flow) (c1 : Z) (w1 : World)
                     (t1 : list Event),
    R w w1 ->
    R w (match flow with
         | Completed => (Looping c1, w1, t1)
         | Return => (Exited, w1, t1)
         | Thrown err =>
             if maxConsecutiveErrors <=? c1 + 1 then
               (if catch_shutting_down it then Exited else Looping 0, w1,
                t1 ++ [Logged (LogErrorInLoop (c1 + 1) err);
                       Logged LogTooManyErrors; Logged (LogFatal err)]
                   ++ (if catch_shutting_down it then []
                       else [Logged LogRestarting]))
             else
               (Looping (c1 + 1), w1,
                t1 ++ [Logged (LogErrorInLoop (c1 + 1) err);
                       Logged (LogWaiting
                                 (Z.min (1000 * 2 ^ (c1 + 1 - 1)) 30000))])
         end).1.2).
  { intros [| |err] c1 w1 t1 Hw; [exact Hw | exact Hw |].
    by destruct (maxConsecutiveErrors <=? c1 + 1). }
  destruct (xread_throws it).
  { apply (Hinner (Thrown RedisError) c w), R_refl. }
  destruct (xread_dollar (stream w) (entry <$> arrivals it)) as [messages|].
  2: { apply (Hinner Completed 0), R_stream. }
  pose proof (process_messages_rel (zip messages (arrivals it)) c
                (with_stream (stream w ++ (entry <$> arrivals it)) w)) as Hm.
  destruct (process_messages _ c _) as [[[f c1] w1] t1]. cbn [fst snd] in Hm.
  apply (Hinner f c1 w1). eapply R_trans; [apply R_stream | exact Hm].
Qed.

Lemma run_rel (steps : list Step) (wk : Worker) (w : World) :
  R w (run steps wk w).1.2.
Proof.
  revert wk w. induction steps as [|s steps IH]; intros wk w; [apply R_refl|].
  cbn [run].
  assert (Hs : R w (step s wk w).1.2).
  { destruct s as [req env|oid env|it]; cbn [step].
    - pose proof (R_post req env w) as Hp.
      by destruct (post_order req env w) as [[r w1] t].
    - pose proof (R_get oid env w) as Hg.
      by destruct (get_order oid env w) as [[r w1] t].
    - destruct wk; [apply iteration_rel | apply R_refl]. }
  destruct (step s wk w) as [[wk1 w1] t1]. cbn [fst snd] in Hs.
  specialize (IH wk1 w1).
  destruct (run steps wk1 w1) as [[wk2 w2] t2]. cbn [fst snd] in *.
  by eapply R_trans.
Qed.

End RunKeeps.

(** ** The worker and the table *)

Section TableFacts.
Context `{Collation}.

Lemma upsert_order_table_wf (now : Z) (oid : string) (a tx tot : spec_float)
    (t : Table) :
  table_wf t -> table_wf (upsert_order now oid a tx tot t).
Proof.
  intros [Hrows Hids]. unfold table_wf, upsert_order. cbn [rows auto_increment].
  set (k := collation_key oid).
  assert (Hnew : forall r0,
    match rows t !! k with
    | Some r =>
        {| id := id r; order_id := order_id r; amount := sql_decimal a;
           tax := sql_decimal tx; total := sql_decimal tot;
           status := completed; created_at := created_at r;
           updated_at := now; processed_at := Some now |}
    | None =>
        {| id := auto_increment t; order_id := oid; amount := sql_decimal a;
           tax := sql_decimal tx; total := sql_decimal tot;
           status := completed; created_at := now;
           updated_at := now; processed_at := Some now |}
    end = r0 ->
    collation_key (order_id r0) = k
    /\ id r0 < auto_increment t + 1
    /\ forall k2 r2, k2 <> k -> rows t !! k2 = Some r2 -> id r0 <> id r2).
  { intros r0 <-. destruct (rows t !! k) as [r|] eqn:Hr; cbn [id order_id].
    - destruct (Hrows k r Hr) as [Hk Hid]. split; [exact Hk|]. split; [lia|].
      intros k2 r2 Hne Hr2 Heq. apply Hne. symmetry.
      by apply (Hids k k2 r r2).
    - split; [reflexivity|]. split; [lia|].
      intros k2 r2 _ Hr2 Heq. destruct (Hrows k2 r2 Hr2) as [_ Hlt]. lia. }
  split.
  - intros k0 r0 Hr0. apply lookup_insert_Some in Hr0 as [[<- Hr0]|[Hne Hr0]].
    + destruct (Hnew r0 Hr0) as (Hk & Hid & _). auto.
    + destruct (Hrows k0 r0 Hr0). split; [assumption | lia].
  - intros k1 k2 r1 r2 Hr1 Hr2 Heq.
    apply lookup_insert_Some in Hr1 as [[<- Hr1]|[Hne1 Hr1]];
      apply lookup_insert_Some in Hr2 as [[<- Hr2]|[Hne2 Hr2]].
    + reflexivity.
    + destruct (Hnew r1 Hr1) as (_ & _ & Hother).
      exfalso. by apply (Hother k2 r2).
    + destruct (Hnew r2 Hr2) as (_ & _ & Hother).
      exfalso. by apply (Hother k1 r1).
    + by apply (Hids k1 k2 r1 r2).
Qed.

Lemma upsert_order_all_completed (now : Z) (oid : string)
    (a tx tot : spec_float) (t : Table) :
  all_completed t -> all_completed (upsert_order now oid a tx tot t).
Proof.
  intros Hall k0 r0. unfold upsert_order. cbn [rows].
  intros [[<- <-]|[_ Hr0]]%lookup_insert_Some; [|by eapply Hall].
  by destruct (rows t !! collation_key oid).
Qed.

(** The table after a message: as it was, or after one upsert. *)
Lemma process_message_table (messageId : Z) (fields : list string) (c : Z)
    (env : Env) (w : World) :
  orders (process_message messageId fields c env w).1.2 = orders w
  \/ exists oid n,
       orders (process_message messageId fields c env w).1.2
       = upsert_order (db_now env) oid n (compute_tax n)
           (compute_total n (compute_tax n)) (orders w).
Proof.
  destruct (decode_order fields) as [[oid n]|] eqn:Hd.
  - rewrite (process_message_well_formed _ _ _ _ _ _ _ Hd). cbv zeta.
    destruct (db_query_throws env); [by left|].
    right. exists oid, n. by destruct (redis_setex_throws env).
  - destruct (process_message_malformed messageId fields c env w Hd)
      as (l & -> & _). by left.
Qed.

End TableFacts.

Section WorkerProperties.
Context `{NumberToString} `{Collation} `{LooseLookup}.

(** X11. A message touches only its own order: whatever the message and
    the calls that fail, processing it leaves the stream as it is; a
    message that fails the checks leaves the whole world as it is; and a
    message for an order leaves as they are the rows under the other keys
    and the cache entries under the other keys. *)
Theorem process_message_touches_only_its_order (messageId : Z)
    (fields : list string) (c : Z) (env : Env) (w : World) :
  let w' := (process_message messageId fields c env w).1.2 in
  stream w' = stream w
  /\ match decode_order fields with
     | None => w' = w
     | Some (oid, _) =>
         (forall oid', collation_key oid' <> collation_key oid ->
            find_order oid' (orders w') = find_order oid' (orders w))
         /\ (forall k, k <> cache_key oid -> cache w' !! k = cache w !! k)
     end.
Proof.
  cbv zeta. destruct (decode_order fields) as [[oid n]|] eqn:Hd.
  - rewrite (process_message_well_formed _ _ _ _ _ _ _ Hd). cbv zeta.
    destruct (db_query_throws env); [cbn; auto|].
    destruct (redis_setex_throws env); cbn -[cache_key];
      (split; [reflexivity|]); split;
      try (intros oid' Hne; by apply find_order_upsert_other); auto.
    intros k Hk. by rewrite lookup_insert_ne.
  - destruct (process_message_malformed messageId fields c env w Hd)
      as (l & -> & _). cbn. auto.
Qed.

(** X12. Both stores are written: once a message for an order id of the
    pattern has been processed with no call throwing, [get_order] answers
    200 both when the cache serves the order and when the lookup in the
    cache throws and the table serves it, each time with status completed;
    the document from the cache holds the order id and the amount of the
    message and the tax and the total computed from it. *)
Theorem processed_order_is_readable (messageId : Z) (fields : list string)
    (c : Z) (env env_hit env_miss : Env) (w : World) (oid : string)
    (n : spec_float) :
  decode_order fields = Some (oid, n) ->
  matches_order_id_pattern oid ->
  db_query_throws env = false ->
  redis_setex_throws env = false ->
  redis_get_throws env_hit = false ->
  redis_expire_throws env_hit = false ->
  redis_get_throws env_miss = true ->
  db_query_throws env_miss = false ->
  let w' := (process_message messageId fields c env w).1.2 in
  exists from_cache from_table,
    (get_order oid env_hit w').1.1
      = Ok {| status_code := 200; body := OrderDocument from_cache |}
    /\ (get_order oid env_miss w').1.1
       = Ok {| status_code := 200; body := OrderDocument from_table |}
    /\ doc_field "cache_hit" from_cache = Some (JBool true)
    /\ doc_field "cache_hit" from_table = Some (JBool false)
    /\ doc_field "status" from_cache = Some (JStr "completed")
    /\ doc_field "status" from_table = Some (JStr "completed")
    /\ Forall (fun kv => doc_field kv.1 from_cache = Some kv.2)
         [("order_id", JStr oid); ("amount", JNum n);
          ("tax", JNum (compute_tax n));
          ("total", JNum (compute_total n (compute_tax n)))].
Proof.
  intros Hd Hp Hdb Hsetex Hget Hexp Hgetm Hdbm. cbv zeta.
  apply get_checks_pattern in Hp.
  rewrite (process_message_well_formed _ _ _ _ _ _ _ Hd). cbv zeta.
  rewrite Hdb, Hsetex. cbn [fst snd].
  rewrite !(get_order_checked oid _ _ Hp). cbv zeta.
  rewrite Hget, Hgetm. cbn [cache with_cache].
  rewrite lookup_insert_eq, Hexp.
  unfold get_from_table. cbv zeta. rewrite Hdbm.
  cbn [orders with_cache]. rewrite find_order_upsert.
  eexists _, _. split; [reflexivity|].
  split; [by destruct (redis_setex_throws env_miss)|].
  rewrite !doc_field_obj_set.
  split; [reflexivity|].
  destruct (find_order oid (orders w)) as [r|];
    (split; [reflexivity|]); (split; [reflexivity|]);
    (split; [reflexivity|]);
    repeat (constructor; [by rewrite ?doc_field_obj_set|]);
    constructor.
Qed.

(** X13. When the loop sees that shutdown is requested as the turn of an
    entry comes, it returns: the entries before it are done, and neither
    that entry nor any entry after it is started. *)
Theorem shutdown_stops_the_batch
    (pre post : list ((Z * list (string * string)) * Delivery))
    (messageId : Z) (e : list (string * string)) (d : Delivery)
    (c c1 : Z) (w w1 : World) (t1 : list Event) :
  shutting_down d = true ->
  process_messages pre c w = (Completed, c1, w1, t1) ->
  process_messages (pre ++ ((messageId, e), d) :: post) c w
  = (Return, c1, w1, t1 ++ [Logged LogShutdownRequested]).
Proof.
  intros Hd Hpre. rewrite process_messages_app, Hpre.
  cbn [process_messages]. by rewrite Hd.
Qed.

(** A reply whose entries all pass the checks, processed with no call
    throwing and no shutdown: every entry is processed. *)
Lemma clean_messages_processed
    (messages : list ((Z * list (string * string)) * Delivery))
    (c : Z) (w : World) :
  Forall (fun m => shutting_down m.2 = false
                   /\ db_query_throws (entry_env m.2) = false
                   /\ redis_setex_throws (entry_env m.2) = false
                   /\ is_Some (decode_order (flat_fields m.1.2))) messages ->
  let out := process_messages messages c w in
  out.1.1.1 = Completed
  /\ (messages <> [] -> out.1.1.2 = 0)
  /\ Forall (fun m => forall oid n,
               decode_order (flat_fields m.1.2) = Some (oid, n) ->
               is_Some (find_order oid (orders out.1.2))
               /\ is_Some (cache out.1.2 !! cache_key oid)) messages.
Proof.
  cbv zeta. intros Hall. revert c w.
  induction Hall as [|[[mid e] d] rest (Hrun & Hdb & Hsetex & [[oid n] Hd]) _ IH];
    intros c w.
  - cbn. split; [reflexivity|]. split; [congruence | constructor].
  - cbn [fst snd] in *. cbn [process_messages]. rewrite Hrun.
    unfold mbind, eff_mbind, eff_bind, console.
    rewrite (process_message_well_formed _ _ _ _ _ _ _ Hd). cbv zeta.
    rewrite Hdb, Hsetex.
    set (w1 := with_cache _ _).
    specialize (IH 0 w1) as (Hdone & _ & Hrest).
    pose proof (process_messages_keeps rest 0 w1) as (_ & [Hrows Hcache] & _ & Hc).
    destruct (process_messages rest 0 w1) as [[[f c2] w2] t2].
    cbn [fst snd] in *.
    split; [exact Hdone|]. split; [intros _; by destruct Hc|].
    constructor; [|exact Hrest].
    cbn [fst snd]. intros oid' n' Hd'. rewrite Hd in Hd'.
    injection Hd' as <- <-. split.
    + apply Hrows. subst w1. cbn [orders with_cache].
      fold (find_order oid (upsert_order (db_now (entry_env d)) oid n
              (compute_tax n) (compute_total n (compute_tax n)) (orders w))).
      rewrite find_order_upsert. eauto.
    + apply Hcache. subst w1. cbn [cache with_cache].
      rewrite lookup_insert_eq. eauto.
Qed.

(** X14. A reply whose entries all pass the checks, processed with no call
    throwing and no shutdown, is processed to its end: every order in it
    has a row in the table and an entry in the cache afterwards, and the
    error count is zero when the reply is not empty. *)
Theorem clean_batch_is_processed
    (messages : list ((Z * list (string * string)) * Delivery))
    (c : Z) (w : World) :
  Forall (fun m => shutting_down m.2 = false
                   /\ db_query_throws (entry_env m.2) = false
                   /\ redis_setex_throws (entry_env m.2) = false
                   /\ is_Some (decode_order (flat_fields m.1.2))) messages ->
  let out := process_messages messages c w in
  out.1.1.1 = Completed
  /\ (messages <> [] -> out.1.1.2 = 0)
  /\ Forall (fun m => forall oid n,
               decode_order (flat_fields m.1.2) = Some (oid, n) ->
               is_Some (find_order oid (orders out.1.2))
               /\ is_Some (cache out.1.2 !! cache_key oid)) messages.
Proof. apply clean_messages_processed. Qed.

(** C8. In the messages of a reply, when those before a malformed entry
    are done and shutdown is not requested, the malformed entry leaves
    two lines on the console (the message, and why it is invalid, with
    the decoded fields or the amount) and nothing else: no call is made
    for it, and the world and the error count are as the entries before
    it left them. The entries after it are then processed from there as
    they would be without it; and when these pass the checks, with no
    call throwing and no shutdown, the loop runs to its end and every one
    of them has its row in the table and its entry in the cache. *)
Theorem C8_malformed_entry_skipped
    (pre post : list ((Z * list (string * string)) * Delivery))
    (messageId : Z) (e : list (string * string)) (d : Delivery)
    (c c1 : Z) (w w1 : World) (t1 : list Event) :
  malformed e ->
  shutting_down d = false ->
  process_messages pre c w = (Completed, c1, w1, t1) ->
  exists l,
    (l = LogInvalidMessageData (decode_fields (flat_fields e))
     \/ exists oid txt, l = LogInvalidAmount oid txt)
    /\ process_messages (pre ++ [((messageId, e), d)]) c w
       = (Completed, c1, w1,
          t1 ++ [Logged (LogProcessingMessage messageId); Logged l])
    /\ process_messages (pre ++ ((messageId, e), d) :: post) c w
       = (let '(f, c2, w2, t2) := process_messages post c1 w1 in
          (f, c2, w2,
           t1 ++ [Logged (LogProcessingMessage messageId); Logged l] ++ t2))
    /\ (Forall (fun m => shutting_down m.2 = false
                         /\ db_query_throws (entry_env m.2) = false
                         /\ redis_setex_throws (entry_env m.2) = false
                         /\ is_Some (decode_order (flat_fields m.1.2))) post ->
        let out :=
          process_messages (pre ++ ((messageId, e), d) :: post) c w in
        out.1.1.1 = Completed
        /\ Forall (fun m => forall oid n,
                     decode_order (flat_fields m.1.2) = Some (oid, n) ->
                     is_Some (find_order oid (orders out.1.2))
                     /\ is_Some (cache out.1.2 !! cache_key oid)) post).
Proof.
  intros Hbad Hrun Hpre.
  apply malformed_decode_order in Hbad.
  destruct (process_message_malformed messageId (flat_fields e) c1
              (entry_env d) w1 Hbad) as (l & Hl & Hkind).
  exists l. split; [exact Hkind|].
  assert (Hwith : forall rest,
    process_messages (pre ++ ((messageId, e), d) :: rest) c w
    = (let '(f, c2, w2, t2) := process_messages rest c1 w1 in
       (f, c2, w2,
        t1 ++ [Logged (LogProcessingMessage messageId); Logged l] ++ t2))).
  { intros rest. rewrite process_messages_app, Hpre.
    cbn [process_messages]. rewrite Hrun.
    unfold mbind, eff_mbind, eff_bind, console. rewrite Hl.
    by destruct (process_messages rest c1 w1) as [[[f c2] w2] t2]. }
  split; [by rewrite (Hwith [])|]. split; [apply Hwith|].
  intros Hclean. cbv zeta. rewrite (Hwith post).
  destruct (clean_messages_processed post c1 w1 Hclean) as (Hdone & _ & Hall).
  destruct (process_messages post c1 w1) as [[[f c2] w2] t2].
  cbn [fst snd] in *. auto.
Qed.

End WorkerProperties.

(** ** The loop: error count, waits and restarts *)

Section LoopProperties.
Context `{NumberToString} `{Collation} `{LooseLookup}.

Lemma iteration_count (it : Iteration) (c : Z) (w : World) :
  0 <= c < maxConsecutiveErrors ->
  let out := iteration it c w in
  (out.1.1 = Exited
   \/ exists c', out.1.1 = Looping c' /\ 0 <= c' < maxConsecutiveErrors)
  /\ Forall (fun d => d = 1000 \/ d = 2000 \/ d = 4000 \/ d = 8000)
       (waits out.2).
Proof.
  intros Hc. cbv zeta. unfold iteration.
  destruct (loop_shutting_down it); [cbn; split; [by left | constructor]|].
  assert (Hinner : forall (flow : Flow) (c1 : Z) (w1 : World)
                     (t1 : list Event),
    c1 = c \/ c1 = 0 -> waits t1 = [] ->
    let out :=
      match flow with
      | Completed => (Looping c1, w1, t1)
      | Return => (Exited, w1, t1)
      | Thrown err =>
          if maxConsecutiveErrors <=? c1 + 1 then
            (if catch_shutting_down it then Exited else Looping 0, w1,
             t1 ++ [Logged (LogErrorInLoop (c1 + 1) err);
                    Logged LogTooManyErrors; Logged (LogFatal err)]
                ++ (if catch_shutting_down it then []
                    else [Logged LogRestarting]))
          else
            (Looping (c1 + 1), w1,
             t1 ++ [Logged (LogErrorInLoop (c1 + 1) err);
                    Logged (LogWaiting
                              (Z.min (1000 * 2 ^ (c1 + 1 - 1)) 30000))])
      end in
    (out.1.1 = Exited
     \/ exists c', out.1.1 = Looping c' /\ 0 <= c' < maxConsecutiveErrors)
    /\ Forall (fun d => d = 1000 \/ d = 2000 \/ d = 4000 \/ d = 8000)
         (waits out.2)).
  { intros flow c1 w1 t1 Hc1 Ht1. unfold maxConsecutiveErrors in *.
    assert (0 <= c1 < 5) by (destruct Hc1; lia).
    destruct flow as [| |err]; cbn [fst snd].
    - rewrite Ht1. split; [right; eauto | constructor].
    - rewrite Ht1. split; [by left | constructor].
    - destruct (Z.leb_spec 5 (c1 + 1)); cbn [fst snd];
        rewrite waits_app, Ht1.
      + split; [|destruct (catch_shutting_down it); constructor].
        destruct (catch_shutting_down it); [by left|].
        right. exists 0. split; [reflexivity | lia].
      + split; [right; exists (c1 + 1); split; [reflexivity | lia]|].
        cbn. constructor; [|constructor].
        assert (Hcases : c1 = 0 \/ c1 = 1 \/ c1 = 2 \/ c1 = 3) by lia.
        destruct Hcases as [-> | [-> | [-> | ->]]]; cbn; auto. }
  destruct (xread_throws it).
  { apply (Hinner (Thrown RedisError) c w); [by left | reflexivity]. }
  destruct (xread_dollar (stream w) (entry <$> arrivals it)) as [messages|].
  2: { apply (Hinner Completed 0); [by right | reflexivity]. }
  pose proof (process_messages_keeps (zip messages (arrivals it)) c
                (with_stream (stream w ++ (entry <$> arrivals it)) w))
    as (_ & _ & Hq & Hc1).
  destruct (process_messages _ c _) as [[[f c1] w1] t1].
  cbn [fst snd] in Hq, Hc1.
  apply (Hinner f c1 w1); [exact Hc1|].
  cbn. exact Hq.
Qed.

(** X15. The error count stays below its ceiling, and so do the waits:
    in any run of the system that starts with a count from 0 to 4, the
    worker has exited or loops with a count from 0 to 4, and every wait
    the loop has announced is of 1000, 2000, 4000 or 8000 ms; the cap of
    30000 ms is never reached. *)
Theorem consecutive_errors_stay_bounded (steps : list Step) (c : Z)
    (w : World) :
  0 <= c < maxConsecutiveErrors ->
  let out := run steps (Looping c) w in
  (out.1.1 = Exited
   \/ exists c', out.1.1 = Looping c' /\ 0 <= c' < maxConsecutiveErrors)
  /\ Forall (fun d => d = 1000 \/ d = 2000 \/ d = 4000 \/ d = 8000)
       (waits out.2).
Proof.
  cbv zeta. intros Hc.
  assert (Hgen : forall wk,
    wk = Exited
    \/ (exists c', wk = Looping c' /\ 0 <= c' < maxConsecutiveErrors) ->
    ((run steps wk w).1.1 = Exited
     \/ exists c', (run steps wk w).1.1 = Looping c'
                   /\ 0 <= c' < maxConsecutiveErrors)
    /\ Forall (fun d => d = 1000 \/ d = 2000 \/ d = 4000 \/ d = 8000)
         (waits (run steps wk w).2)); [|apply Hgen; right; eauto].
  clear c Hc. revert w. induction steps as [|s steps IH]; intros w wk Hwk.
  - cbn. split; [exact Hwk | constructor].
  - cbn [run].
    assert (Hs : ((step s wk w).1.1 = Exited
                  \/ exists c', (step s wk w).1.1 = Looping c'
                                /\ 0 <= c' < maxConsecutiveErrors)
                 /\ Forall (fun d => d = 1000 \/ d = 2000 \/ d = 4000
                                     \/ d = 8000)
                      (waits (step s wk w).2)).
    { destruct s as [req env|oid env|it]; cbn [step].
      - pose proof (post_order_keeps req env w) as [_ Hq].
        destruct (post_order req env w) as [[r w1] t]. cbn [fst snd] in *.
        rewrite Hq. split; [exact Hwk | constructor].
      - pose proof (get_order_keeps oid env w) as [_ Hq].
        destruct (get_order oid env w) as [[r w1] t]. cbn [fst snd] in *.
        rewrite Hq. split; [exact Hwk | constructor].
      - destruct Hwk as [-> | (c' & -> & Hc')].
        + cbn. split; [by left | constructor].
        + by apply iteration_count. }
    destruct (step s wk w) as [[wk1 w1] t1]. cbn [fst snd] in Hs.
    destruct Hs as [Hwk1 Hw1].
    specialize (IH w1 wk1 Hwk1) as [Hwk2 Hw2].
    destruct (run steps wk1 w1) as [[wk2 w2] t2]. cbn [fst snd] in *.
    split; [exact Hwk2|]. rewrite waits_app. by apply Forall_app.
Qed.

(** X16. The breaker: from a count [c] between 0 and 4, as many failed
    reads in a row as it takes to reach 5 leave the world as it was, double
    the wait from [1000 * 2^c] ms on after each but the last, and after
    the last one start [processOrders] anew with a count of 0. *)
Theorem failed_reads_restart_the_loop (c : Z) (w : World) :
  0 <= c < maxConsecutiveErrors ->
  let out := run (replicate (Z.to_nat (maxConsecutiveErrors - c))
                    (Turn failed_read)) (Looping c) w in
  out.1.1 = Looping 0
  /\ out.1.2 = w
  /\ waits out.2 = (fun k => 1000 * 2 ^ k) <$> seqZ c (4 - c)
  /\ In (Logged LogRestarting) out.2.
Proof.
  unfold maxConsecutiveErrors. intros Hc.
  assert (Hcases : c = 0 \/ c = 1 \/ c = 2 \/ c = 3 \/ c = 4) by lia.
  destruct Hcases as [-> | [-> | [-> | [-> | ->]]]];
    vm_compute; repeat split; auto 30.
Qed.

End LoopProperties.

(** ** What a run of the system keeps *)

Section RunProperties.
Context `{NumberToString} `{Collation} `{LooseLookup}.

Lemma get_order_keeps_cache_entries (oid : string) (env : Env) (w : World) :
  forall k, is_Some (cache w !! k) ->
            is_Some (cache (get_order oid env w).1.2 !! k).
Proof.
  assert (Htable : forall t k,
            is_Some (cache w !! k) ->
            is_Some (cache (get_from_table oid env w t).1.2 !! k)).
  { intros t k Hk. unfold get_from_table. cbv zeta.
    destruct (db_query_throws env); [exact Hk|].
    destruct (find_order oid (orders w)); [|exact Hk].
    destruct (redis_setex_throws env); [exact Hk|].
    cbn [fst snd cache with_cache]. apply lookup_insert_is_Some'. auto. }
  intros k Hk. destruct (get_checks oid) eqn:Hchecks.
  - rewrite (get_order_checked oid env w Hchecks). cbv zeta.
    destruct (redis_get_throws env); [by apply Htable|].
    destruct (cache w !! cache_key oid) as [[doc ttl]|]; [|by apply Htable].
    destruct (redis_expire_throws env); [by apply Htable|].
    cbn [fst snd cache with_cache]. apply lookup_insert_is_Some'. auto.
  - by destruct (get_order_rejected oid env w Hchecks) as [b ->].
Qed.

(** X17. Nothing is deleted: in any run of the system, a row that the
    table holds and an entry that the cache holds at some point are still
    held, under the same key, at the end of the run. Rows and cache
    entries only leave by the hand of the surroundings (the expiry of the
    cache). *)
Theorem run_loses_nothing (steps : list Step) (wk : Worker) (w : World) :
  nothing_lost w (run steps wk w).1.2.
Proof.
  apply (run_rel nothing_lost nothing_lost_refl nothing_lost_trans).
  - intros s w0. split; auto.
  - intros req env w0.
    destruct (post_order_keeps req env w0) as [[Ho Hc] _].
    split; intros k; [rewrite Ho | rewrite Hc]; auto.
  - intros oid env w0.
    destruct (get_order_keeps oid env w0) as [Ho _].
    split; [intros k; rewrite Ho; auto|].
    apply get_order_keeps_cache_entries.
  - intros mid fields c env w0.
    by destruct (process_message_keeps mid fields c env w0) as [[_ Hl] _].
Qed.

(** X18. The table stays as the schema wants it: in any run of the system
    from a table in which each row stands under the collation key of its
    [order_id], ids are below the next AUTO_INCREMENT value and no two
    rows share an id, and in which every row is completed, the table at
    the end is such a table again. From the empty table on, the pipeline
    writes no row that is not completed. *)
Theorem run_keeps_table_well_formed (steps : list Step) (wk : Worker)
    (w : World) :
  table_wf (orders w) ->
  all_completed (orders w) ->
  table_wf (orders (run steps wk w).1.2)
  /\ all_completed (orders (run steps wk w).1.2).
Proof.
  intros Hwf Hall.
  apply (run_rel (fun w1 w2 =>
           table_wf (orders w1) /\ all_completed (orders w1) ->
           table_wf (orders w2) /\ all_completed (orders w2)));
    [auto | auto | auto | | | | auto].
  - intros req env w0.
    destruct (post_order_keeps req env w0) as [[-> _] _]. auto.
  - intros oid env w0.
    destruct (get_order_keeps oid env w0) as [-> _]. auto.
  - intros mid fields c env w0 [Hwf0 Hall0].
    destruct (process_message_table mid fields c env w0)
      as [-> | (oid & n & ->)]; [auto|].
    split; [by apply upsert_order_table_wf | by apply upsert_order_all_completed].
Qed.

Lemma run_app (steps1 steps2 : list Step) (wk : Worker) (w : World) :
  run (steps1 ++ steps2) wk w =
    let '(wk1, w1, t1) := run steps1 wk w in
    let '(wk2, w2, t2) := run steps2 wk1 w1 in
    (wk2, w2, t1 ++ t2).
Proof.
  revert wk w. induction steps1 as [|s steps1 IH]; intros wk w.
  - cbn. by destruct (run steps2 wk w) as [[wk2 w2] t2].
  - cbn [app run].
    destruct (step s wk w) as [[wk0 w0] t0]. rewrite IH.
    destruct (run steps1 wk0 w0) as [[wk1 w1] t1].
    destruct (run steps2 wk1 w1) as [[wk2 w2] t2].
    by rewrite app_assoc.
Qed.

Lemma post_order_accepted_stream (req : PostRequest) (env : Env) (w : World) :
  is_accepted (post_order req env w).1.1 ->
  length (stream (post_order req env w).1.2) = S (length (stream w)).
Proof.
  destruct (post_checks_cases req) as [[Hc Ht] | [[Hc Ht] | [Hc Ht]]].
  - rewrite (post_order_passed req env w Hc). cbv zeta.
    destruct (redis_get_throws env); [intros [b [=]]|].
    destruct (cache w !! cache_key _) as [[doc ttl]|]; [intros [b [=]]|].
    destruct (db_query_throws env); [intros [b [=]]|].
    destruct (select_rows _ (orders w)); [|intros [b [=]]].
    destruct (redis_xadd_throws env); [intros [b [=]]|].
    intros _. cbn [fst snd stream]. rewrite length_app. cbn. lia.
  - rewrite (post_order_throws req env w Ht). intros [b' [=]].
  - destruct (post_order_rejected req env w Hc Ht) as [b ->].
    intros [b' [=]].
Qed.

(** X19. An order queued while the worker is not blocked in its read is
    never delivered: when [post_order] accepts a request in the course of
    a run, between two turns of the loop, the id of the entry it has added
    is returned by no read of the run, before or after. *)
Theorem queued_between_reads_is_never_delivered (before after : list Step)
    (req : PostRequest) (env : Env) (wk : Worker) (w : World) :
  let w1 := (run before wk w).1.2 in
  is_accepted (post_order req env w1).1.1 ->
  ~ In (Z.of_nat (length (stream w1)) + 1)
       (delivered_ids (run (before ++ Post req env :: after) wk w).2).
Proof.
  cbv zeta. intros Hacc.
  rewrite run_app.
  pose proof (run_reads before wk w) as (_ & _ & Hbefore).
  destruct (run before wk w) as [[wk1 w1] t1]. cbn [fst snd] in *.
  cbn [run step].
  pose proof (post_order_accepted_stream req env w1 Hacc) as Hlen.
  pose proof (post_order_appends_only req env w1) as [_ Hquiet].
  destruct (post_order req env w1) as [[r w2] t2]. cbn [fst snd] in *.
  pose proof (run_reads after wk1 w2) as (_ & _ & Hafter).
  destruct (run after wk1 w2) as [[wk3 w3] t3]. cbn [fst snd] in *.
  rewrite !delivered_ids_app, Hquiet. cbn [app].
  rewrite in_app_iff. rewrite List.Forall_forall in Hbefore, Hafter.
  intros [Hin | Hin].
  - specialize (Hbefore _ Hin). lia.
  - specialize (Hafter _ Hin). lia.
Qed.


End RunProperties.

(** ** The fields of a message *)


(** * Further scenarios *)

Section FurtherScenarios.
#[local] Existing Instance ascii_ci.
#[local] Existing Instance integral_toString.
#[local] Existing Instance no_loose_match.

Lemma ord1_matches : matches_order_id_pattern "ord-1".
Proof. apply order_id_checks_pattern. vm_compute. reflexivity. Qed.

Lemma table_wf_empty : table_wf (orders empty_world).
Proof.
  split.
  - intros k r Hk. cbn in Hk. by rewrite lookup_empty in Hk.
  - intros k1 k2 r1 r2 Hk. cbn in Hk. by rewrite lookup_empty in Hk.
Qed.

Lemma all_completed_empty : all_completed (orders empty_world).
Proof. intros k r Hk. cbn in Hk. by rewrite lookup_empty in Hk. Qed.

(** C8, witness: a read returns an entry for [ord-1], an entry without
    amount, and an entry for [ord-3]; no call throws. The entry without
    amount leaves two lines on the console, and [ord-3] is processed
    after it. *)
Lemma C8_witness :
  let m1 := ((1, order_entry "ord-1" "100"),
             delivery (order_entry "ord-1" "100") (calm 1000 "T0")) in
  let e2 := [("order_id", "ord-2")] in
  let m2 := ((2, e2), delivery e2 (calm 1000 "T0")) in
  let m3 := ((3, order_entry "ord-3" "7"),
             delivery (order_entry "ord-3" "7") (calm 1000 "T0")) in
  let out := process_messages ([m1] ++ m2 :: [m3]) 0 empty_world in
  malformed e2
  /\ out.1.1.1 = Completed
  /\ is_Some (find_order "ord-3" (orders out.1.2))
  /\ is_Some (cache out.1.2 !! cache_key "ord-3")
  /\ exists c1 w1 t1 l,
       process_messages [m1] 0 empty_world = (Completed, c1, w1, t1)
       /\ (l = LogInvalidMessageData (decode_fields (flat_fields e2))
           \/ exists oid txt, l = LogInvalidAmount oid txt)
       /\ process_messages ([m1] ++ [m2]) 0 empty_world
          = (Completed, c1, w1,
             t1 ++ [Logged (LogProcessingMessage 2); Logged l]).
Proof.
  intros m1 e2 m2 m3 out.
  assert (Hbad : malformed e2) by (right; left; vm_compute; reflexivity).
  assert (Hpre : process_messages [m1] 0 empty_world
                 = (Completed, ?[c1], ?[w1], ?[t1]))
    by (vm_compute; reflexivity).
  destruct (C8_malformed_entry_skipped [m1] [m3] 2 e2
              (delivery e2 (calm 1000 "T0")) 0 _ empty_world _ _
              Hbad eq_refl Hpre)
    as (l & Hkind & Hentry & _ & Hafter).
  assert (Hclean :
    Forall (fun m : Z * list (string * string) * Delivery =>
              shutting_down m.2 = false
              /\ db_query_throws (entry_env m.2) = false
              /\ redis_setex_throws (entry_env m.2) = false
              /\ is_Some (decode_order (flat_fields m.1.2))) [m3]).
  { apply List.Forall_cons; [|apply List.Forall_nil].
    split; [reflexivity|]. split; [reflexivity|]. split; [reflexivity|].
    vm_compute. eexists. reflexivity. }
  destruct (Hafter Hclean) as [Hdone Hall].
  assert (Hd3 : decode_order (flat_fields (order_entry "ord-3" "7"))
                = Some ("ord-3", JsNumber.of_string "7"))
    by (vm_compute; reflexivity).
  destruct (List.Forall_inv Hall "ord-3" (JsNumber.of_string "7") Hd3)
    as [Hrow Hcache].
  split; [exact Hbad|]. split; [exact Hdone|].
  split; [exact Hrow|]. split; [exact Hcache|].
  eexists _, _, _, l. split; [exact Hpre|].
  split; [exact Hkind | exact Hentry].
Defined.

(** X2, witness: [ord-1] read from the world whose cache holds it. *)
Lemma get_order_cache_hit_witness :
  let oid := "ord-1" in
  let env := calm 1001 "T1" in
  let w := cached_world in
  let doc := doc_ord1 in
  exists served,
    get_order oid env w =
      (Ok {| status_code := 200; body := OrderDocument served |},
       with_cache (fun c => <[cache_key oid := (doc, CACHE_TTL)]> c) w,
       [Logged (LogRetrieving oid); Called (RedisGet (cache_key oid));
        Logged (LogServedFromCache oid);
        Called (RedisExpire (cache_key oid) CACHE_TTL)])
    /\ doc_field "cache_hit" served = Some (JBool true)
    /\ doc_field "retrieved_at" served = Some (JStr (js_now env))
    /\ forall k, k <> "cache_hit" -> k <> "retrieved_at" ->
         doc_field k served = doc_field k doc.
Proof.
  intros oid env w doc.
  assert (Hcached : cache w !! cache_key oid = Some (doc, 120))
    by (vm_compute; reflexivity).
  exact (get_order_cache_hit oid env w doc 120 ord1_matches Hcached
           eq_refl eq_refl).
Defined.

(** X3, witness: [ord-1] is in the cache and the lookup throws; the world
    of comparison has the same table and an empty cache. *)
Lemma get_order_cache_error_is_miss_witness :
  (get_order "ord-1" (cache_read_down 1001 "T1") cached_world).1.1
  = (get_order "ord-1" (calm 1001 "T1") empty_world).1.1.
Proof.
  assert (Hmiss : cache empty_world !! cache_key "ord-1" = None)
    by (vm_compute; reflexivity).
  exact (get_order_cache_error_is_miss "ord-1" (cache_read_down 1001 "T1")
           (calm 1001 "T1") cached_world empty_world ord1_matches
           (or_introl eq_refl) eq_refl Hmiss eq_refl eq_refl eq_refl).
Defined.

(** X4, witness: [ord-1] read from the world whose table holds it. *)
Lemma get_order_served_from_table_witness :
  let oid := "ord-1" in
  let env := calm 1001 "T1" in
  let w := stored_world in
  let r := row_ord1 in
  let out := get_order oid env w in
  out.1.1 = Ok {| status_code := 200;
                  body := OrderDocument (enrich r (js_now env)) |}
  /\ doc_field "cache_hit" (enrich r (js_now env)) = Some (JBool false)
  /\ doc_field "amount" (enrich r (js_now env))
     = Some (JNum (decimal_to_number (amount r)))
  /\ doc_field "tax" (enrich r (js_now env))
     = Some (JNum (decimal_to_number (tax r)))
  /\ doc_field "total" (enrich r (js_now env))
     = Some (JNum (decimal_to_number (total r)))
  /\ cache out.1.2 =
       (if redis_setex_throws env then cache w
        else <[cache_key oid := (enrich r (js_now env), CACHE_TTL)]> (cache w)).
Proof.
  intros oid env w r.
  assert (Hmiss : cache w !! cache_key oid = None)
    by (vm_compute; reflexivity).
  assert (Hrow : find_order oid (orders w) = Some r)
    by (vm_compute; reflexivity).
  exact (get_order_served_from_table oid env w r ord1_matches eq_refl Hmiss
           eq_refl Hrow).
Defined.

(** X5, witness: the document of [ord-1] is in the cache, the refresh of
    its time to live throws, and the table has no row for it. *)
Lemma get_order_not_served_witness :
  let oid := "ord-1" in
  let env := cache_refresh_down 1001 "T1" in
  let w := cached_world in
  let out := get_order oid env w in
  out.1.2 = w
  /\ out.1.1 =
       if db_query_throws env
       then Ok {| status_code := 500;
                  body := ErrFailedToRetrieve oid (js_now env) |}
       else Ok {| status_code := 404; body := ErrNotFound oid |}.
Proof.
  intros oid env w.
  assert (Hcached : cache w !! cache_key oid = Some (doc_ord1, 120))
    by (vm_compute; reflexivity).
  assert (Hrow : find_order oid (orders w) = None)
    by (vm_compute; reflexivity).
  exact (get_order_not_served oid env w ord1_matches
           (or_intror (or_intror (conj (ex_intro _ _ Hcached) eq_refl)))
           (or_intror Hrow)).
Defined.

(** X6, witness: [ord-1] read twice from the world whose table holds
    it. *)
Lemma get_order_twice_witness :
  let oid := "ord-1" in
  let env1 := calm 1001 "T1" in
  let env2 := calm 1002 "T2" in
  let w := stored_world in
  let r := row_ord1 in
  let first := get_order oid env1 w in
  let second := get_order oid env2 first.1.2 in
  first.1.1 = Ok {| status_code := 200;
                    body := OrderDocument (enrich r (js_now env1)) |}
  /\ second.1.1 =
       Ok {| status_code := 200;
             body := OrderDocument
               (obj_set "retrieved_at" (JStr (js_now env2))
                  (obj_set "cache_hit" (JBool true)
                     (enrich r (js_now env1)))) |}
  /\ second.2 =
       [Logged (LogRetrieving oid); Called (RedisGet (cache_key oid));
        Logged (LogServedFromCache oid);
        Called (RedisExpire (cache_key oid) CACHE_TTL)].
Proof.
  intros oid env1 env2 w r.
  assert (Hmiss : cache w !! cache_key oid = None)
    by (vm_compute; reflexivity).
  assert (Hrow : find_order oid (orders w) = Some r)
    by (vm_compute; reflexivity).
  exact (get_order_twice oid env1 env2 w r ord1_matches
           (no_fault_calm 1001 "T1") (no_fault_calm 1002 "T2") Hmiss Hrow).
Defined.


(** X9, witness: [ord-1] is submitted while the query of the table
    throws. *)
Lemma post_order_unavailable_witness :
  let req := submit_ord1 50 in
  let env := db_down 1001 "T1" in
  let w := empty_world in
  let out := post_order req env w in
  out.1.1 = Ok {| status_code := 500; body := ErrFailedToQueue (js_now env) |}
  /\ out.1.2 = w.
Proof.
  intros req env w.
  assert (Hchecks : post_checks req = true) by (vm_compute; reflexivity).
  assert (Hmiss : cache w !! cache_key "ord-1" = None)
    by (vm_compute; reflexivity).
  exact (post_order_unavailable req "ord-1" env w eq_refl Hchecks eq_refl
           Hmiss (or_introl eq_refl)).
Defined.

(** X10, witness: [ord-1] with amount 100 is submitted to the empty
    world; the engine prints 100 as [100]. *)
Lemma accepted_entry_is_well_formed_witness :
  let req := submit_ord1 100 in
  let oid := "ord-1" in
  let env := calm 1000 "T0" in
  let w := empty_world in
  exists e,
    stream (post_order req env w).1.2 = stream w ++ [e]
    /\ decode_order (flat_fields e) = Some (oid, ToNumber (body_amount req)).
Proof.
  intros req oid env w.
  assert (Hchecks : post_checks req = true) by (vm_compute; reflexivity).
  assert (Hprint :
            JsNumber.of_string (number_toString (ToNumber (body_amount req)))
            = ToNumber (body_amount req)) by (vm_compute; reflexivity).
  assert (Haccepted : is_accepted (post_order req env w).1.1)
    by (vm_compute; eexists; reflexivity).
  exact (accepted_entry_is_well_formed req oid env w eq_refl Hchecks Hprint
           Haccepted).
Defined.

(** X12, witness: the message for [ord-1] with amount 100 is processed in
    the empty world; then the order is read once with the cache up and
    once with the lookup in the cache throwing. *)
Lemma processed_order_is_readable_witness :
  let fields := flat_fields (order_entry "ord-1" "100") in
  let env := calm 1000 "T0" in
  let env_hit := calm 1001 "T1" in
  let env_miss := cache_read_down 1002 "T2" in
  let oid := "ord-1" in
  let n := JsNumber.of_string "100" in
  let w' := (process_message 1 fields 0 env empty_world).1.2 in
  exists from_cache from_table,
    (get_order oid env_hit w').1.1
      = Ok {| status_code := 200; body := OrderDocument from_cache |}
    /\ (get_order oid env_miss w').1.1
       = Ok {| status_code := 200; body := OrderDocument from_table |}
    /\ doc_field "cache_hit" from_cache = Some (JBool true)
    /\ doc_field "cache_hit" from_table = Some (JBool false)
    /\ doc_field "status" from_cache = Some (JStr "completed")
    /\ doc_field "status" from_table = Some (JStr "completed")
    /\ Forall (fun kv => doc_field kv.1 from_cache = Some kv.2)
         [("order_id", JStr oid); ("amount", JNum n);
          ("tax", JNum (compute_tax n));
          ("total", JNum (compute_total n (compute_tax n)))].
Proof.
  intros fields env env_hit env_miss oid n.
  assert (Hdecode : decode_order fields = Some (oid, n))
    by (vm_compute; reflexivity).
  exact (processed_order_is_readable 1 fields 0 env env_hit env_miss
           empty_world oid n Hdecode ord1_matches eq_refl eq_refl eq_refl
           eq_refl eq_refl eq_refl).
Defined.

(** X13, witness: a reply with entries for [ord-1], [ord-2] and [ord-3];
    shutdown is requested when the turn of the second comes. *)
Lemma shutdown_stops_the_batch_witness :
  let m1 := ((1, order_entry "ord-1" "100"),
             delivery (order_entry "ord-1" "100") (calm 1000 "T0")) in
  let d2 := {| entry := order_entry "ord-2" "7";
               entry_env := calm 1000 "T0"; shutting_down := true |} in
  let m3 := ((3, order_entry "ord-3" "7"),
             delivery (order_entry "ord-3" "7") (calm 1000 "T0")) in
  exists c1 w1 t1,
    process_messages [m1] 0 empty_world = (Completed, c1, w1, t1)
    /\ process_messages ([m1] ++ ((2, order_entry "ord-2" "7"), d2) :: [m3])
         0 empty_world
       = (Return, c1, w1, t1 ++ [Logged LogShutdownRequested]).
Proof.
  intros m1 d2 m3.
  eexists _, _, _.
  assert (Hpre : process_messages [m1] 0 empty_world
                 = (Completed, ?[c1], ?[w1], ?[t1]))
    by (vm_compute; reflexivity).
  split; [exact Hpre|].
  exact (shutdown_stops_the_batch [m1] [m3] 2 (order_entry "ord-2" "7") d2
           0 _ empty_world _ _ eq_refl Hpre).
Defined.

(** X14, witness: a reply with entries for [ord-1] and [ord-3], no call
    throwing. *)
Lemma clean_batch_is_processed_witness :
  let messages :=
    [((1, order_entry "ord-1" "100"),
      delivery (order_entry "ord-1" "100") (calm 1000 "T0"));
     ((2, order_entry "ord-3" "7"),
      delivery (order_entry "ord-3" "7") (calm 1000 "T0"))] in
  let out := process_messages messages 0 empty_world in
  out.1.1.1 = Completed
  /\ (messages <> [] -> out.1.1.2 = 0)
  /\ Forall (fun m => forall oid n,
               decode_order (flat_fields m.1.2) = Some (oid, n) ->
               is_Some (find_order oid (orders out.1.2))
               /\ is_Some (cache out.1.2 !! cache_key oid)) messages.
Proof.
  intros messages.
  apply (clean_batch_is_processed messages 0 empty_world).
  unfold messages.
  repeat (apply List.Forall_cons;
          [split; [reflexivity|]; split; [reflexivity|];
           split; [reflexivity|]; vm_compute; eexists; reflexivity|]).
  apply List.Forall_nil.
Defined.

(** X15, witness: from a count of 3, a failed read and then a read that
    returns an entry for [ord-1]. *)
Lemma consecutive_errors_stay_bounded_witness :
  let steps :=
    [Turn failed_read;
     Turn (turn [delivery (order_entry "ord-1" "100") (calm 1000 "T0")])] in
  let out := run steps (Looping 3) empty_world in
  (out.1.1 = Exited
   \/ exists c', out.1.1 = Looping c' /\ 0 <= c' < maxConsecutiveErrors)
  /\ Forall (fun d => d = 1000 \/ d = 2000 \/ d = 4000 \/ d = 8000)
       (waits out.2).
Proof.
  intros steps.
  apply (consecutive_errors_stay_bounded steps 3 empty_world).
  unfold maxConsecutiveErrors. lia.
Defined.

(** X16, witness: from a count of 2, three failed reads in a row. *)
Lemma failed_reads_restart_the_loop_witness :
  let out := run (replicate (Z.to_nat (maxConsecutiveErrors - 2))
                    (Turn failed_read)) (Looping 2) empty_world in
  out.1.1 = Looping 0
  /\ out.1.2 = empty_world
  /\ waits out.2 = (fun k => 1000 * 2 ^ k) <$> seqZ 2 (4 - 2)
  /\ In (Logged LogRestarting) out.2.
Proof.
  apply (failed_reads_restart_the_loop 2 empty_world).
  unfold maxConsecutiveErrors. lia.
Defined.

(** X18, witness: from the empty world, the worker reads and processes an
    entry for [ord-1], and the order is read back. *)
Lemma run_keeps_table_well_formed_witness :
  let steps :=
    [Turn (turn [delivery (order_entry "ord-1" "100") (calm 1000 "T0")]);
     Get "ord-1" (calm 1001 "T1")] in
  table_wf (orders (run steps (Looping 0) empty_world).1.2)
  /\ all_completed (orders (run steps (Looping 0) empty_world).1.2).
Proof.
  intros steps.
  exact (run_keeps_table_well_formed steps (Looping 0) empty_world
           table_wf_empty all_completed_empty).
Defined.

(** X19, witness: a read that times out, then [ord-1] is submitted, then
    a read during which [ord-2] arrives. *)
Lemma queued_between_reads_is_never_delivered_witness :
  let before := [Turn (turn [])] in
  let after :=
    [Turn (turn [delivery (order_entry "ord-2" "7") (calm 1001 "T1")])] in
  let req := submit_ord1 100 in
  let env := calm 1000 "T0" in
  let w1 := (run before (Looping 0) empty_world).1.2 in
  ~ In (Z.of_nat (length (stream w1)) + 1)
       (delivered_ids
          (run (before ++ Post req env :: after) (Looping 0) empty_world).2).
Proof.
  intros before after req env.
  apply (queued_between_reads_is_never_delivered before after req env
           (Looping 0) empty_world).
  vm_compute. eexists. reflexivity.
Defined.


End FurtherScenarios.
